(** * Consolidation of local and remote configuration (fx-core, projectConsolidate)

    A shallow embedding of the project-consolidation middleware of the Teams
    Toolkit core ([src/unnamed/part_001]): the detector
    [needConsolidateLocalRemote], the consent loop [upgrade], the single-flight
    latch [checkMethod], the transformer [consolidateLocalRemote] with its
    rollback, the SPFx URL rewrite and the structural manifest [diff]. *)

From Stdlib Require Import String Ascii List ZArith Bool Lia.
Import ListNotations.
Open Scope string_scope.
Set Warnings "-register-all".

(** ** JSON values, as [JSON.parse] produces them

    Objects keep their fields in order; as produced by [JSON.parse] their keys
    are pairwise distinct. *)
Inductive json : Type :=
| JNull
| JBool (b : bool)
| JNum (n : Z)
| JStr (s : string)
| JArr (items : list json)
| JObj (fields : list (string * json)).

(** Decimal rendering of an array index, the key [Object.keys] gives it. *)
Fixpoint dec_digits (fuel n : nat) (acc : string) : string :=
  match fuel with
  | O => acc
  | S f =>
      let acc' := String (ascii_of_nat (48 + Nat.modulo n 10)) acc in
      if Nat.ltb n 10 then acc' else dec_digits f (Nat.div n 10) acc'
  end.

Definition string_of_nat (n : nat) : string := dec_digits (S n) n "".

Fixpoint assoc (k : string) (kvs : list (string * json)) : option json :=
  match kvs with
  | [] => None
  | (k', v) :: t => if String.eqb k k' then Some v else assoc k t
  end.

Fixpoint nth_key (i : nat) (k : string) (l : list json) : option json :=
  match l with
  | [] => None
  | v :: t => if String.eqb k (string_of_nat i) then Some v else nth_key (S i) k t
  end.

Fixpoint char_key (i : nat) (k : string) (s : string) : option json :=
  match s with
  | EmptyString => None
  | String c t =>
      if String.eqb k (string_of_nat i) then Some (JStr (String c EmptyString))
      else char_key (S i) k t
  end.

(** Inherited members: [__proto__] reads the prototype, an object with no
    enumerable key; every other inherited member read by the code is a method
    (a function) and is modelled, like [undefined], by [None]: neither is an
    object for [isObject] nor strictly equal to a JSON value. *)
Definition proto_get (k : string) : option json :=
  if String.eqb k "__proto__" then Some (JObj []) else None.

(** The property read [v[k]] on a non-null value. *)
Definition js_get (v : json) (k : string) : option json :=
  match v with
  | JObj kvs => match assoc k kvs with Some x => Some x | None => proto_get k end
  | JArr l =>
      match nth_key 0 k l with
      | Some x => Some x
      | None =>
          if String.eqb k "length" then Some (JNum (Z.of_nat (length l))) else proto_get k
      end
  | JStr s =>
      match char_key 0 k s with
      | Some x => Some x
      | None =>
          if String.eqb k "length" then Some (JNum (Z.of_nat (String.length s)))
          else proto_get k
      end
  | _ => proto_get k
  end.

(** [Object.keys(v).length] *)
Definition key_count (v : json) : nat :=
  match v with
  | JObj kvs => length kvs
  | JArr l => length l
  | JStr s => String.length s
  | _ => 0
  end.

(** [isObject(o)]: [typeof o === "object" && !!o]. *)
Definition isObject (o : option json) : bool :=
  match o with
  | Some (JObj _) | Some (JArr _) => true
  | _ => false
  end.

(** [a === b] for a value [a] read from an own key of the first tree: objects
    of two separately parsed trees are never the same reference. *)
Definition js_strict_eq (a b : option json) : bool :=
  match a, b with
  | None, None => true
  | Some JNull, Some JNull => true
  | Some (JBool x), Some (JBool y) => Bool.eqb x y
  | Some (JNum x), Some (JNum y) => Z.eqb x y
  | Some (JStr x), Some (JStr y) => String.eqb x y
  | _, _ => false
  end.

Definition ignoreKeys : list string :=
  ["name"; "contentUrl"; "configurationUrl"; "manifestVersion"; "$schema"; "description"].

Definition ignored (k : string) : bool := existsb (String.eqb k) ignoreKeys.

(** Loops of [for (key of keys)], over the fields of an object and over the
    indices of an array or a string. *)
Fixpoint all_fields (f : string -> json -> bool) (l : list (string * json)) : bool :=
  match l with
  | [] => true
  | (k, v) :: t => f k v && all_fields f t
  end.

Fixpoint all_items (f : nat -> json -> bool) (i : nat) (l : list json) : bool :=
  match l with
  | [] => true
  | v :: t => f i v && all_items f (S i) t
  end.

Fixpoint all_chars (f : nat -> string -> bool) (i : nat) (s : string) : bool :=
  match s with
  | EmptyString => true
  | String c t => f i (String c EmptyString) && all_chars f (S i) t
  end.

(** [diff(a, b)] on non-null trees. The recursive call is made only when both
    values are objects; a failing key ends the loop with [false], so the loop
    is the conjunction over the keys of [a]. *)
Fixpoint diff (a b : json) {struct a} : bool :=
  Nat.eqb (key_count a) (key_count b) &&
  match a with
  | JObj kvs =>
      all_fields (fun k v =>
        ignored k ||
        match v, js_get b k with
        | JObj _, Some (JObj _ as w) | JObj _, Some (JArr _ as w)
        | JArr _, Some (JObj _ as w) | JArr _, Some (JArr _ as w) => diff v w
        | _, bv => js_strict_eq (Some v) bv
        end) kvs
  | JArr l =>
      all_items (fun i v =>
        ignored (string_of_nat i) ||
        match v, js_get b (string_of_nat i) with
        | JObj _, Some (JObj _ as w) | JObj _, Some (JArr _ as w)
        | JArr _, Some (JObj _ as w) | JArr _, Some (JArr _ as w) => diff v w
        | _, bv => js_strict_eq (Some v) bv
        end) 0 l
  | JStr s =>
      all_chars (fun i c =>
        ignored (string_of_nat i) || js_strict_eq (Some (JStr c)) (js_get b (string_of_nat i)))
        0 s
  | _ => true
  end.

(** The call in [compareLocalAndRemoteManifest]: [Object.keys(null)] raises a
    [TypeError] ([None]). *)
Definition diff_top (a b : json) : option bool :=
  match a, b with
  | JNull, _ | _, JNull => None
  | _, _ => Some (diff a b)
  end.


(** *** The amended reading of the diff contract

    At every level the two trees have the same number of own keys, and for
    every own key of the first tree outside the ignored set the value read
    from the second tree under that key is an equivalent tree when both are
    objects (arrays included), and a strictly equal value otherwise. *)
Fixpoint indexed (i : nat) (l : list json) : list (string * json) :=
  match l with
  | [] => []
  | v :: t => (string_of_nat i, v) :: indexed (S i) t
  end.

Fixpoint indexed_chars (i : nat) (s : string) : list (string * json) :=
  match s with
  | EmptyString => []
  | String c t => (string_of_nat i, JStr (String c EmptyString)) :: indexed_chars (S i) t
  end.

(** The own enumerable entries of a value, in the order of [Object.keys]. *)
Definition own_entries (a : json) : list (string * json) :=
  match a with
  | JObj kvs => kvs
  | JArr l => indexed 0 l
  | JStr s => indexed_chars 0 s
  | _ => []
  end.

Inductive manifest_equiv : json -> json -> Prop :=
| Equiv (a b : json) :
    key_count a = key_count b ->
    (forall k v, In (k, v) (own_entries a) -> ~ In k ignoreKeys ->
                 value_match v (js_get b k)) ->
    manifest_equiv a b
with value_match : json -> option json -> Prop :=
| VM_nested (v w : json) :
    isObject (Some v) = true -> isObject (Some w) = true -> manifest_equiv v w ->
    value_match v (Some w)
| VM_strict (v : json) (bv : option json) :
    ~ (isObject (Some v) = true /\ isObject bv = true) ->
    js_strict_eq (Some v) bv = true ->
    value_match v bv.


(** Proof-side helpers: the size of a tree, the comparison of one pair of
    values in the loop of [diff] (with the recursive call as a parameter), the
    test run for one key, and the decimal value of a digit string. *)
Fixpoint json_size (j : json) : nat :=
  match j with
  | JArr l => S (list_sum (map json_size l))
  | JObj kvs => S (list_sum (map (fun kv => json_size (snd kv)) kvs))
  | _ => 1
  end.

Definition vm_bool (rec : json -> json -> bool) (v : json) (bv : option json) : bool :=
  match v, bv with
  | JObj _, Some (JObj _ as w) | JObj _, Some (JArr _ as w)
  | JArr _, Some (JObj _ as w) | JArr _, Some (JArr _ as w) => rec v w
  | _, bv => js_strict_eq (Some v) bv
  end.

Definition field_ok (b : json) (k : string) (v : json) : bool :=
  ignored k || vm_bool diff v (js_get b k).

Fixpoint dec_value (a : nat) (s : string) : nat :=
  match s with
  | EmptyString => a
  | String c t => dec_value (a * 10 + (nat_of_ascii c - 48)) t
  end.

(** ** The SPFx URL rewrite *)

(** [componentIdRegex]: the lookbehind [componentId=], then the greedy
    class [a-z0-9-] repeated, then the lookahead [%26]. *)
Definition is_id_char (c : ascii) : bool :=
  let n := nat_of_ascii c in
  (Nat.leb 97 n && Nat.leb n 122) || (Nat.leb 48 n && Nat.leb n 57) || Nat.eqb n 45.

(** The greedy run of the class and what follows it. Backtracking to a
    shorter run never helps: the lookahead needs ["%"] next, which is not in
    the class. *)
Fixpoint id_run (s : string) : string * string :=
  match s with
  | String c t =>
      if is_id_char c then let (r, rest) := id_run t in (String c r, rest) else ("", s)
  | EmptyString => ("", "")
  end.

(** [componentIdRegex.exec(s)]: the match at the leftmost position preceded
    by ["componentId="]; such positions are visited in the order of the
    occurrences of ["componentId="]. *)
Fixpoint exec_componentId (s : string) : option string :=
  match s with
  | EmptyString => None
  | String _ t =>
      if String.prefix "componentId=" s then
        let (r, rest) := id_run (substring 12 (String.length s - 12) s) in
        if String.prefix "%26" rest then Some r else exec_componentId t
      else exec_componentId t
  end.

Definition replaceSPFxComponentId (content : string) : string :=
  match exec_componentId content with
  | Some m => m
  | None => ""
  end.

(** [util.format(fmt, ...args)] with string arguments: ["%s"] takes the next
    argument, ["%%"] is a percent sign, any other ["%c"] is copied; the
    arguments left over are appended, each after a space. The templates hold
    no other conversion specifier ([d i f j o O c]); those are not modelled. *)
Fixpoint format_go (s : string) (args : list string) : string * list string :=
  match s with
  | String "%" (String c t) =>
      match args with
      | a :: rest =>
          if Ascii.eqb c "s" then let (o, r) := format_go t rest in (a ++ o, r)
          else if Ascii.eqb c "%" then let (o, r) := format_go t args in (String "%" o, r)
          else let (o, r) := format_go t args in (String "%" (String c o), r)
      | [] =>
          if Ascii.eqb c "%" then let (o, r) := format_go t [] in (String "%" o, r)
          else let (o, r) := format_go t [] in (String "%" (String c o), r)
      end
  | String c t => let (o, r) := format_go t args in (String c o, r)
  | EmptyString => ("", args)
  end.

Definition util_format (fmt : string) (args : list string) : string :=
  match args with
  | [] => fmt
  | _ =>
      let (o, rest) := format_go fmt args in
      o ++ String.concat "" (map (fun a => " " ++ a) rest)
  end.

Definition string_of_Z (z : Z) : string :=
  match z with
  | Zneg _ => "-" ++ string_of_nat (Z.abs_nat z)
  | _ => string_of_nat (Z.abs_nat z)
  end.

(** [String(v)] of a JS value; arrays and objects (never component ids in a
    manifest) are rendered as ["[object Object]"]. *)
Definition js_string (v : option json) : string :=
  match v with
  | None => "undefined"
  | Some JNull => "null"
  | Some (JBool true) => "true"
  | Some (JBool false) => "false"
  | Some (JNum n) => string_of_Z n
  | Some (JStr s) => s
  | Some _ => "[object Object]"
  end.

Definition truthy (v : option json) : bool :=
  match v with
  | None | Some JNull => false
  | Some (JBool b) => b
  | Some (JNum n) => negb (Z.eqb n 0)
  | Some (JStr s) => negb (String.eqb s "")
  | Some _ => true
  end.

Definition is_undefined (v : option json) : bool :=
  match v with None => true | _ => false end.

Definition is_empty_string (v : option json) : bool :=
  match v with Some (JStr "") => true | _ => false end.

(** [x.length > 0] for a truthy [x]; a [length] that is neither a number nor
    a boolean is taken as not positive. *)
Definition length_pos (x : option json) : bool :=
  match x with
  | Some v =>
      match js_get v "length" with
      | Some (JNum n) => Z.ltb 0 n
      | Some (JBool b) => b
      | _ => false
      end
  | None => false
  end.

(** [o?.k] *)
Definition js_get_opt (o : json) (k : string) : option json :=
  match o with JNull => None | _ => js_get o k end.

Fixpoint set_assoc (k : string) (v : json) (kvs : list (string * json)) : list (string * json) :=
  match kvs with
  | [] => [(k, v)]
  | (k', v') :: t => if String.eqb k k' then (k', v) :: t else (k', v') :: set_assoc k v t
  end.

(** [item.k = v] in strict mode: on an object the field is set in place (a new
    key goes last); on an array it adds a property that [JSON.stringify]
    drops; on [null] or a primitive it raises a [TypeError] ([None]). *)
Definition js_set (o : json) (k : string) (v : json) : option json :=
  match o with
  | JObj kvs => Some (JObj (set_assoc k v kvs))
  | JArr _ => Some o
  | _ => None
  end.

(** The body of [manifest.staticTabs.forEach]: the running [componentId] is
    reset to [item.entityId], and extracted from [item.contentUrl] only when
    [(item.contentUrl && componentId === undefined) || componentId === ""]. *)
Definition static_tab_step (tpl : string) (item : json) : option (option json * json) :=
  match item with
  | JNull => None
  | _ =>
      let cid0 := js_get item "entityId" in
      let url := js_get item "contentUrl" in
      let cid :=
        if (truthy url && is_undefined cid0) || is_empty_string cid0
        then Some (JStr (replaceSPFxComponentId (js_string url))) else cid0 in
      let contentUrl := util_format tpl [js_string cid; js_string cid] in
      match js_set item "contentUrl" (JStr contentUrl) with
      | Some item' => Some (cid, item')
      | None => None
      end
  end.

(** The body of [manifest.configurableTabs.forEach]: [componentId] carries
    over from the static tabs. *)
Definition config_tab_step (tpl : string) (cid0 : option json) (item : json)
  : option (option json * json) :=
  match item with
  | JNull => None
  | _ =>
      let url := js_get item "configurationUrl" in
      let cid :=
        if (truthy url && is_undefined cid0) || is_empty_string cid0
        then Some (JStr (replaceSPFxComponentId (js_string url))) else cid0 in
      let configurationUrl := util_format tpl [js_string cid; js_string cid] in
      match js_set item "configurationUrl" (JStr configurationUrl) with
      | Some item' => Some (cid, item')
      | None => None
      end
  end.

Fixpoint static_tabs (tpl : string) (cid : option json) (l : list json)
  : option (option json * list json) :=
  match l with
  | [] => Some (cid, [])
  | item :: t =>
      match static_tab_step tpl item with
      | None => None
      | Some (cid', item') =>
          match static_tabs tpl cid' t with
          | None => None
          | Some (cid'', t') => Some (cid'', item' :: t')
          end
      end
  end.

Fixpoint config_tabs (tpl : string) (cid : option json) (l : list json)
  : option (option json * list json) :=
  match l with
  | [] => Some (cid, [])
  | item :: t =>
      match config_tab_step tpl cid item with
      | None => None
      | Some (cid', item') =>
          match config_tabs tpl cid' t with
          | None => None
          | Some (cid'', t') => Some (cid'', item' :: t')
          end
      end
  end.

(** One [if (manifest?.X && manifest.X.length > 0) manifest.X.forEach(...)]
    block: a non-array with a positive length has no [forEach] ([TypeError]). *)
Definition tabs_block (field : string)
    (loop : option json -> list json -> option (option json * list json))
    (cid : option json) (m : json) : option (option json * json) :=
  let x := js_get_opt m field in
  if truthy x && length_pos x then
    match x with
    | Some (JArr l) =>
        match loop cid l with
        | Some (cid', l') =>
            match js_set m field (JArr l') with
            | Some m' => Some (cid', m')
            | None => None
            end
        | None => None
        end
    | _ => None
    end
  else Some (cid, m).

(** Lines 209-236 of [consolidateLocalRemote]: the rewritten manifest, or
    [None] when the rewrite raises a [TypeError]. *)
Definition spfx_rewrite (tplContent tplConfig : string) (m : json) : option json :=
  match tabs_block "staticTabs" (static_tabs tplContent) (Some (JStr "")) m with
  | None => None
  | Some (cid, m1) =>
      match tabs_block "configurableTabs" (config_tabs tplConfig) cid m1 with
      | None => None
      | Some (_, m2) => Some m2
      end
  end.


(** Proof-side helper: no position of [pre] starts an occurrence of
    ["componentId="] in [pre ++ q]. *)
Fixpoint no_marker_start (pre q : string) : bool :=
  match pre with
  | EmptyString => true
  | String _ t => negb (String.prefix "componentId=" (pre ++ q)) && no_marker_start t q
  end.

(** Proof-side helper: every character of [s] is in the class [a-z0-9-]. *)
Definition all_id_chars (s : string) : bool :=
  forallb is_id_char (list_ascii_of_string s).

(** Modelled from the spec: a stand-in for [ManifestTemplate.REMOTE_CONTENT_URL]
    (SPFx plugin constants, not in src/), of which the spec says only that it
    is a fixed URL template into which the component identifier is formatted
    twice. *)
Definition remoteContentUrlTemplate : string :=
  "https://{teamSiteDomain}/_layouts/15/teamshostedapp.aspx?componentId=%s%26dest=%s".

(** ** File system

    Regular files by path; a directory exists when some file lies beneath it.
    A file's content is its parse by [JSON.parse] ([CJson]) or a text that
    does not parse ([CText]). Paths are built by [path_join] from a project
    path that is normalised (absolute, no trailing separator). *)
Inductive content : Type :=
| CJson (j : json)
| CText (s : string).

Definition fsys := list (string * content).

Definition path_join (segs : list string) : string := String.concat "/" segs.

Fixpoint fs_lookup (f : fsys) (p : string) : option content :=
  match f with
  | [] => None
  | (q, c) :: t => if String.eqb q p then Some c else fs_lookup t p
  end.

(** [p] lies strictly beneath the directory [dir]. *)
Definition under (dir p : string) : bool := String.prefix (dir ++ "/") p.

Definition fs_write (f : fsys) (p : string) (c : content) : fsys :=
  (p, c) :: filter (fun qc => negb (String.eqb (fst qc) p)) f.

(** [fs.pathExists] *)
Definition fs_exists (f : fsys) (p : string) : bool :=
  existsb (fun qc => String.eqb (fst qc) p || under p (fst qc)) f.

(** [fs.remove]: the file or the whole directory tree. *)
Definition fs_remove (f : fsys) (p : string) : fsys :=
  filter (fun qc => negb (String.eqb (fst qc) p || under p (fst qc))) f.

(** ** Collaborators and the effects of a run *)
Inductive platform : Type := VSCode | CLI | VS.

Record Inputs : Type := mkInputs { projectPath : option string; inputPlatform : platform }.

(** The values of [ctx.arguments]: the context itself, an [Inputs] object, or
    any other value. *)
Inductive arg : Type := ArgCtx | ArgInputs (i : Inputs) | ArgOther.

(** [lastArg === ctx ? ctx.arguments[length - 2] : lastArg], [None] for
    [undefined]. *)
Definition select_inputs (args : list arg) : option arg :=
  match rev args with
  | ArgCtx :: rest => match rest with a :: _ => Some a | [] => None end
  | a :: _ => Some a
  | [] => None
  end.

Definition arg_projectPath (a : arg) : option string :=
  match a with ArgInputs i => projectPath i | _ => None end.

Definition arg_platform (a : arg) : option platform :=
  match a with ArgInputs i => Some (inputPlatform i) | _ => None end.

(** Modelled from the spec: [ProjectSettings] (loaded by
    [loadProjectSettings], core/middleware/projectSettingsLoader, not in src/)
    carries the app name and the SPFx capability flag that [isSPFxProject]
    (common/tools, not in src/) reads. *)
Record ProjectSettings : Type := mkSettings { appName : string; isSPFxProject : bool }.

Inductive error : Type :=
| IoFault (n : nat)            (** the [n]-th failable file operation fails *)
| Enoent (p : string)
| SyntaxErr
| TypeErr
| EnvWriteErr
| LoadErr (msg : string)
| ConsolidateCanceledError.

Inductive event : Type :=
| Telemetry (name : string)
| TelemetryError (name : string)
| ShowMessage (severity text : string) (modal : bool) (buttons : list string)
| OpenUrl (url : string)
| LogWarning (msg : string)
| LogInfo (msg : string)
| GitignoreAdd (path : string).

(** The state of a run: the file system; the run's [fileList], [removeMap]
    (a [Map], in insertion order) and [moveFiles]; [ctx.result]; the
    observable events, most recent first; the fault plan (the index of the
    failable file operation that fails, if any) and its counter; and, as
    ghost state, the history of (file system, [removeMap]) after each
    operation that changes either. *)
Record state : Type := mkState {
  st_fs : fsys;
  st_fileList : list string;
  st_removeMap : list (string * string);
  st_moveFiles : string;
  st_result : option error;
  st_events : list event;
  st_clock : nat;
  st_fault : option nat;
  st_hist : list (fsys * list (string * string))
}.

Inductive outcome (A : Type) : Type := Ok (a : A) | Exc (e : error).
Arguments Ok {A} a.
Arguments Exc {A} e.

Definition M (A : Type) : Type := state -> outcome A * state.

Definition ret {A} (a : A) : M A := fun s => (Ok a, s).
Definition bind {A B} (m : M A) (k : A -> M B) : M B :=
  fun s => match m s with
           | (Ok a, s') => k a s'
           | (Exc e, s') => (Exc e, s')
           end.
Definition throw {A} (e : error) : M A := fun s => (Exc e, s).
(** [try { m } catch (e) { h(e) }] *)
Definition try_catch {A} (m : M A) (h : error -> M A) : M A :=
  fun s => match m s with
           | (Exc e, s') => h e s'
           | r => r
           end.

Notation "x <- m ;; k" := (bind m (fun x => k)) (at level 61, m at next level, right associativity).
Notation "m ;; k" := (bind m (fun _ => k)) (at level 61, right associativity).

Definition set_fs (f : fsys) (s : state) : state :=
  mkState f (st_fileList s) (st_removeMap s) (st_moveFiles s) (st_result s) (st_events s)
          (st_clock s) (st_fault s) ((f, st_removeMap s) :: st_hist s).
Definition set_fileList (l : list string) (s : state) : state :=
  mkState (st_fs s) l (st_removeMap s) (st_moveFiles s) (st_result s) (st_events s)
          (st_clock s) (st_fault s) (st_hist s).
Definition set_removeMap (m : list (string * string)) (s : state) : state :=
  mkState (st_fs s) (st_fileList s) m (st_moveFiles s) (st_result s) (st_events s)
          (st_clock s) (st_fault s) ((st_fs s, m) :: st_hist s).
Definition set_moveFiles (mv : string) (s : state) : state :=
  mkState (st_fs s) (st_fileList s) (st_removeMap s) mv (st_result s) (st_events s)
          (st_clock s) (st_fault s) (st_hist s).
Definition set_result (r : option error) (s : state) : state :=
  mkState (st_fs s) (st_fileList s) (st_removeMap s) (st_moveFiles s) r (st_events s)
          (st_clock s) (st_fault s) (st_hist s).
Definition add_event (ev : event) (s : state) : state :=
  mkState (st_fs s) (st_fileList s) (st_removeMap s) (st_moveFiles s) (st_result s)
          (ev :: st_events s) (st_clock s) (st_fault s) (st_hist s).
Definition tick (s : state) : state :=
  mkState (st_fs s) (st_fileList s) (st_removeMap s) (st_moveFiles s) (st_result s)
          (st_events s) (S (st_clock s)) (st_fault s) (st_hist s).

Definition emit (ev : event) : M unit := fun s => (Ok tt, add_event ev s).
Definition get_fs : M fsys := fun s => (Ok (st_fs s), s).

(** A failable file operation: it fails when the fault plan names it. *)
Definition failable {A} (op : M A) : M A :=
  fun s => if match st_fault s with Some n => Nat.eqb n (st_clock s) | None => false end
           then (Exc (IoFault (st_clock s)), tick s)
           else op (tick s).

(** [fs.pathExists] never rejects. *)
Definition pathExists (p : string) : M bool := fun s => (Ok (fs_exists (st_fs s) p), s).

Definition readFile (p : string) : M content :=
  failable (fun s => match fs_lookup (st_fs s) p with
                     | Some c => (Ok c, s)
                     | None => (Exc (Enoent p), s)
                     end).

Definition writeFile (p : string) (c : content) : M unit :=
  failable (fun s => (Ok tt, set_fs (fs_write (st_fs s) p c) s)).

(** [fs.copyFile] and [fs.copy] (overwriting) of a file. *)
Definition copyFile (src dst : string) : M unit :=
  failable (fun s => match fs_lookup (st_fs s) src with
                     | Some c => (Ok tt, set_fs (fs_write (st_fs s) dst c) s)
                     | None => (Exc (Enoent src), s)
                     end).

Definition copy (src dst : string) : M unit := copyFile src dst.

Definition remove (p : string) : M unit :=
  failable (fun s => (Ok tt, set_fs (fs_remove (st_fs s) p) s)).

Definition push_file (p : string) : M unit :=
  fun s => (Ok tt, set_fileList (st_fileList s ++ [p])%list s).

(** [removeMap.set(k, v)]: an existing key keeps its place. *)
Fixpoint map_set (k v : string) (m : list (string * string)) : list (string * string) :=
  match m with
  | [] => [(k, v)]
  | (k', v') :: t => if String.eqb k k' then (k', v) :: t else (k', v') :: map_set k v t
  end.

Definition removeMap_set (k v : string) : M unit :=
  fun s => (Ok tt, set_removeMap (map_set k v (st_removeMap s)) s).

Definition add_move (name : string) : M unit :=
  fun s => (Ok tt, set_moveFiles (st_moveFiles s ++ name) s).

Fixpoint iter {A} (f : A -> M unit) (l : list A) : M unit :=
  match l with
  | [] => ret tt
  | x :: t => f x ;; iter f t
  end.

(** ** The transformer [consolidateLocalRemote] *)

Definition backupFolder : string := ".backup".
Definition upgradeReportName : string := "unify-config-change-logs.md".

Definition remoteManifestFile (p : string) : string :=
  path_join [p; "templates"; "appPackage"; "manifest.remote.template.json"].
Definition localManifestFile (p : string) : string :=
  path_join [p; "templates"; "appPackage"; "manifest.local.template.json"].
Definition localSettingsFile (p : string) : string :=
  path_join [p; ".fx"; "configs"; "localSettings.json"].
(** [path.join(backupPath, ...)] with [backupPath = path.join(p, backupFolder)]. *)
Definition backupLocalSettings (p : string) : string :=
  path_join [p; backupFolder; ".fx"; "configs"; "localSettings.json"].
Definition backupLocalManifest (p : string) : string :=
  path_join [p; backupFolder; "templates"; "appPackage"; "manifest.local.template.json"].
Definition backupRemoteManifest (p : string) : string :=
  path_join [p; backupFolder; "templates"; "appPackage"; "manifest.remote.template.json"].

(** Modelled from the spec: [getManifestTemplatePath] (appstudio
    manifestTemplate, not in src/) gives the unified manifest template path,
    the [templates/appPackage/manifest.template.json] that
    [needConsolidateLocalRemote] tests for. *)
Definition getManifestTemplatePath (p : string) : string :=
  path_join [p; "templates"; "appPackage"; "manifest.template.json"].

(** Modelled from the spec: [getLocalAppName] and
    [environmentManager.newEnvConfigData] (not in src/) build the local
    environment configuration record from the app name; only the name is
    kept here. *)
Definition newEnvConfigData (name : string) : content :=
  CJson (JObj [("appName", JStr name)]).

(** Modelled from the spec: [environmentManager.writeEnvConfig]
    (core/environment, not in src/) persists the record of environment
    [envName] as a new environment config file; for [local] that is the
    local-only config file [.fx/configs/config.local.json] that
    [updateGitIgnore] adds to the ignore file. A failure is an error result,
    not an exception. *)
Definition writeEnvConfig (p : string) (data : content) (envName : string) : M (option error) :=
  fun s =>
    if match st_fault s with Some n => Nat.eqb n (st_clock s) | None => false end
    then (Ok (Some EnvWriteErr), tick s)
    else (Ok None,
          set_fs (fs_write (st_fs s) (path_join [p; ".fx"; "configs"; "config." ++ envName ++ ".json"]) data)
                 (tick s)).

Definition localEnvConfigFile (p : string) : string :=
  path_join [p; ".fx"; "configs"; "config.local.json"].

Definition parse_json (c : content) : M json :=
  match c with CJson j => ret j | CText _ => throw SyntaxErr end.

Definition reset_run : M unit :=
  fun s => (Ok tt, set_moveFiles "" (set_removeMap [] (set_fileList [] s))).

Definition get_removeMap : M (list (string * string)) := fun s => (Ok (st_removeMap s), s).
Definition get_fileList : M (list string) := fun s => (Ok (st_fileList s), s).
Definition get_moveFiles : M string := fun s => (Ok (st_moveFiles s), s).
Definition set_result_m (r : option error) : M unit := fun s => (Ok tt, set_result r s).

Section Consolidate.

(** [.toString().replace(manifestRegex, "")] followed by [JSON.parse], as one
    function that fails with [None]. *)
Variable parse_template : content -> option json.
(** [loadProjectSettings(inputs, true)]. *)
Variable loadProjectSettings : Inputs -> fsys -> ProjectSettings + error.
(** [ManifestTemplate.REMOTE_CONTENT_URL] and [REMOTE_CONFIGURATION_URL]. *)
Variable tplContent tplConfig : string.
(** [getResourceFolder()]. *)
Variable resourceFolder : string.

Definition lift_opt {A} (e : error) (o : option A) : M A :=
  match o with Some a => ret a | None => throw e end.

Definition compareLocalAndRemoteManifest (localFile remoteFile : string) : M unit :=
  try_catch
    (l <- readFile localFile ;;
     r <- readFile remoteFile ;;
     lj <- lift_opt SyntaxErr (parse_template l) ;;
     rj <- lift_opt SyntaxErr (parse_template r) ;;
     same <- lift_opt TypeErr (diff_top lj rj) ;;
     if negb same
     then emit (ShowMessage "warn" "core.consolidateLocalRemote.DifferentManifest" false ["OK"])
     else ret tt)
    (fun _ => emit (TelemetryError "ProjectConsolidateCheckManifestError")).

(** Step 1: the local environment. *)
Definition step_env (p : string) (ps : ProjectSettings) : M unit :=
  emit (Telemetry "ProjectConsolidateAddLocalEnvStart") ;;
  w <- writeEnvConfig p (newEnvConfigData (appName ps)) "local" ;;
  match w with Some e => throw e | None => ret tt end ;;
  push_file (path_join [p; ".fx"; "configs"; "env.local.json"]) ;;
  emit (Telemetry "ProjectConsolidateAddLocalEnv").

(** Step 2: the unified manifest. *)
Definition step_manifest (p : string) (ps : ProjectSettings) : M unit :=
  remoteExist <- pathExists (remoteManifestFile p) ;;
  (if remoteExist then
     if isSPFxProject ps then
       emit (Telemetry "ProjectConsolidateAddSPFXManifestStart") ;;
       c <- readFile (remoteManifestFile p) ;;
       m <- parse_json c ;;
       m' <- lift_opt TypeErr (spfx_rewrite tplContent tplConfig m) ;;
       writeFile (getManifestTemplatePath p) (CJson m') ;;
       emit (Telemetry "ProjectConsolidateAddSPFXManifest")
     else
       emit (Telemetry "ProjectConsolidateCopyAzureManifestStart") ;;
       copyFile (remoteManifestFile p) (getManifestTemplatePath p) ;;
       emit (Telemetry "ProjectConsolidateCopyAzureManifest")
   else ret tt) ;;
  push_file (path_join [p; "templates"; "appPackage"; "template.manifest.json"]).

(** Step 3: back up the local settings. *)
Definition step_backup_localSettings (p : string) : M unit :=
  emit (Telemetry "ProjectConsolidateBackupConfigStart") ;;
  e <- pathExists (localSettingsFile p) ;;
  if e then
    copy (localSettingsFile p) (backupLocalSettings p) ;;
    remove (localSettingsFile p) ;;
    add_move "localSettings.json," ;;
    removeMap_set (backupLocalSettings p) (localSettingsFile p)
  else ret tt.

(** Step 4: compare the local and remote manifests. *)
Definition step_compare (p : string) : M unit :=
  le <- pathExists (localManifestFile p) ;;
  if le then
    re <- pathExists (remoteManifestFile p) ;;
    if re then compareLocalAndRemoteManifest (localManifestFile p) (remoteManifestFile p)
    else ret tt
  else ret tt.

(** Step 5: back up the local manifest. *)
Definition step_backup_localManifest (p : string) : M unit :=
  e <- pathExists (localManifestFile p) ;;
  if e then
    copy (localManifestFile p) (backupLocalManifest p) ;;
    remove (localManifestFile p) ;;
    add_move "manifest.local.template.json," ;;
    removeMap_set (backupLocalManifest p) (localManifestFile p)
  else ret tt.

(** Step 6: back up the remote manifest. *)
Definition step_backup_remote (p : string) : M unit :=
  e <- pathExists (remoteManifestFile p) ;;
  if e then
    copy (remoteManifestFile p) (backupRemoteManifest p) ;;
    remove (remoteManifestFile p) ;;
    add_move "manifest.remote.template.json," ;;
    removeMap_set (backupRemoteManifest p) (remoteManifestFile p)
  else ret tt.

(** [postConsolidate] is not awaited: its effects are observable events
    ([addPathToGitignore], projectMigrator, is a collaborator) and a
    rejection of its promise never reaches the [catch]. *)
Definition postConsolidate (p : string) (inp : Inputs) (moveFiles : string) : M unit :=
  emit (Telemetry "ProjectConsolidateGuideStart") ;;
  emit (GitignoreAdd (p ++ "/.fx/configs/config.local.json")) ;;
  emit (GitignoreAdd (p ++ "/.fx/states/state.local.json")) ;;
  emit (GitignoreAdd (p ++ "/" ++ backupFolder)) ;;
  (if Nat.ltb 0 (String.length moveFiles) then
     emit (LogWarning ("[core] Upgrade success! Old " ++
                       substring 0 (String.length moveFiles - 1) moveFiles ++
                       " have been backed up to the .backup folder and you can delete it."))
   else ret tt) ;;
  match inputPlatform inp with
  | VSCode => ret tt
  | _ => emit (LogInfo "core.consolidateLocalRemote.SuccessMessage")
  end.

(** The body of the [try] block, steps 1 to 6 and the hand-over to
    [postConsolidate]. *)
Definition forward (inp : Inputs) (p : string) (ps : ProjectSettings) : M unit :=
  step_env p ps ;;
  step_manifest p ps ;;
  step_backup_localSettings p ;;
  step_compare p ;;
  step_backup_localManifest p ;;
  step_backup_remote p ;;
  emit (Telemetry "ProjectConsolidateBackupConfig") ;;
  emit (Telemetry "ProjectConsolidateUpgrade") ;;
  mv <- get_moveFiles ;;
  postConsolidate p inp mv.

(** The [catch] block, before the rethrow. *)
Definition rollback (p : string) : M unit :=
  rm <- get_removeMap ;;
  iter (fun bo => copy (fst bo) (snd bo)) rm ;;
  fl <- get_fileList ;;
  iter remove fl ;;
  remove (path_join [p; backupFolder]).

(** [generateUpgradeReport], not awaited; its failures are swallowed. *)
Definition generateUpgradeReport (p : string) : M unit :=
  try_catch
    (copyFile (path_join [resourceFolder; upgradeReportName])
              (path_join [p; backupFolder; upgradeReportName]))
    (fun _ => ret tt).

(** [consolidateLocalRemote(ctx)] for the selected [inputs] and its project
    path [p]; [fileList], [removeMap] and [moveFiles] are fresh locals. *)
Definition consolidateLocalRemote (inp : Inputs) (p : string) : M bool :=
  emit (Telemetry "ProjectConsolidateUpgradeStart") ;;
  reset_run ;;
  f <- get_fs ;;
  match loadProjectSettings inp f with
  | inr e => set_result_m (Some e) ;; ret false
  | inl ps =>
      try_catch (forward inp p ps) (fun e => rollback p ;; throw e) ;;
      generateUpgradeReport p ;;
      ret true
  end.

End Consolidate.

(** ** Detector, consent loop and single-flight latch *)

Definition upgradeButton : string := "Upgrade".
Definition LearnMore : string := "Learn More".
Definition LearnMoreLink : string := "https://aka.ms/teamsfx-unify-config-guide".
Definition methods : list string := ["getProjectConfig"; "checkPermission"].

Definition methods_has (m : string) : bool := existsb (String.eqb m) methods.

(** [needConsolidateLocalRemote(ctx)] for the feature flag
    [isConfigUnifyEnabled()]; [None] when [inputs] is [undefined] and reading
    its [projectPath] raises. *)
Definition needConsolidateLocalRemote (isConfigUnifyEnabled : bool) (args : list arg)
    (f : fsys) : option bool :=
  if negb isConfigUnifyEnabled then Some false
  else
    match select_inputs args with
    | None => None
    | Some inputs =>
        match arg_projectPath inputs with
        | None | Some "" => Some false
        | Some p =>
            if negb (fs_exists f (path_join [p; ".fx"])) then Some false
            else if negb (fs_exists f (path_join [p; "templates"; "appPackage"; "manifest.template.json"]))
            then Some true
            else Some false
        end
    end.

(** [checkMethod(ctx)] on the module-level [userCancelFlag]: the answer and
    the new flag. *)
Definition checkMethod (userCancelFlag : bool) (method : option string) : bool * bool :=
  match method with
  | Some m =>
      if negb (String.eqb m "") && methods_has m && userCancelFlag then (false, userCancelFlag)
      else (true, methods_has m)
  | None => (true, false)
  end.

Definition is_answer (a : option string) (b : string) : bool :=
  match a with Some x => String.eqb x b | None => false end.

(** The [do ... while (answer === LearnMore)] loop, fed with the user's
    successive answers ([res.isOk() ? res.value : undefined]); it returns the
    answer that ends it, or [None] while the prompt is still open when the
    answers run out. *)
Fixpoint consent (showModal : bool) (answers : list (option string))
  : M (option (option string)) :=
  match answers with
  | [] => ret None
  | a :: rest =>
      emit (ShowMessage "warn" "core.consolidateLocalRemote.Message" showModal
                        [upgradeButton; LearnMore]) ;;
      if is_answer a LearnMore then emit (OpenUrl LearnMoreLink) ;; consent showModal rest
      else ret (Some a)
  end.

Definition cancelledMessage : string := "[core] Upgrade cancelled.".
Definition noticeVSCode : string :=
  "[core] Notice upgrade to new configuration files is a must-have to continue to use current version Teams Toolkit. If you are not ready to upgrade and want to continue to use the old version Teams Toolkit, please find Teams Toolkit in Extension and install the version <= 3.7.0".
Definition noticeCLI : string :=
  "[core] Notice upgrade to new configuration files is a must-have to continue to use current version Teams Toolkit CLI. If you want to upgrade, please trigger this command again.".
Definition noticeCLIOldVersion : string :=
  "[core] If you are not ready to upgrade and want to continue to use the old version Teams Toolkit CLI, please install the version <= 3.7.0".

Definition outputCancelMessage (args : list arg) : M unit :=
  emit (LogWarning cancelledMessage) ;;
  match select_inputs args with
  | None => throw TypeErr
  | Some inputs =>
      match arg_platform inputs with
      | Some VSCode => emit (LogWarning noticeVSCode)
      | _ => emit (LogWarning noticeCLI) ;; emit (LogWarning noticeCLIOldVersion)
      end
  end.

Section Upgrade.
Variable parse_template : content -> option json.
Variable loadProjectSettings : Inputs -> fsys -> ProjectSettings + error.
Variable tplContent tplConfig resourceFolder : string.
(** The next middleware. *)
Variable next : M unit.

(** The inputs [consolidateLocalRemote] reads; [upgrade] runs only after
    [needConsolidateLocalRemote] found them with a project path. *)
Definition consolidate_ctx (args : list arg) : M bool :=
  match select_inputs args with
  | Some (ArgInputs i) =>
      match projectPath i with
      | Some p =>
          consolidateLocalRemote parse_template loadProjectSettings tplContent tplConfig
                                 resourceFolder i p
      | None => throw TypeErr
      end
  | _ => throw TypeErr
  end.

Definition upgrade (args : list arg) (showModal : bool) (answers : list (option string))
  : M unit :=
  r <- consent showModal answers ;;
  match r with
  | None => ret tt
  | Some answer =>
      if negb (is_answer answer upgradeButton) then
        emit (Telemetry "ProjectConsolidateNotification:Cancel") ;;
        set_result_m (Some ConsolidateCanceledError) ;;
        outputCancelMessage args
      else
        emit (Telemetry "ProjectConsolidateNotification:OK") ;;
        try_catch (consolidate_ctx args ;; next)
                  (fun e => emit (TelemetryError "ProjectConsolidateError") ;; throw e)
  end.

End Upgrade.

(** ** Restorable backups

    The part of a state the [removeMap] invariant looks at: the file system,
    the map and the history of their snapshots. An entry [(b, o)] is
    restorable against the file system [f0] of the start of the run when [o]
    was a file of [f0] and the backup [b] holds its content. *)
Definition view_t : Type := (fsys * list (string * string) * list (fsys * list (string * string)))%type.

Definition view (s : state) : view_t := (st_fs s, st_removeMap s, st_hist s).

Definition restorable (f0 f : fsys) (rm : list (string * string)) : Prop :=
  forall b o, In (b, o) rm -> fs_lookup f0 o <> None /\ fs_lookup f b = fs_lookup f0 o.

Definition snapshots_restorable (f0 : fsys) (h : list (fsys * list (string * string))) : Prop :=
  Forall (fun fr => restorable f0 (fst fr) (snd fr)) h.

(** The invariant of one phase of the run: entries restorable now and in
    every snapshot taken since the start ([h0] is the history then), entries
    drawn from [allowed], and the originals still to be backed up
    ([pending]) unchanged. *)
Definition phase_inv (f0 : fsys) (h0 : list (fsys * list (string * string)))
    (allowed : list (string * string)) (pending : list string) (v : view_t) : Prop :=
  let '(f, rm, h) := v in
  restorable f0 f rm /\
  (exists new, h = (new ++ h0)%list /\ snapshots_restorable f0 new) /\
  (forall bo, In bo rm -> In bo allowed) /\
  (forall o, In o pending -> fs_lookup f o = fs_lookup f0 o).

Definition vtriple {A : Type} (P : view_t -> Prop) (m : M A) (Q E : view_t -> Prop) : Prop :=
  forall s, P (view s) ->
  match m s with
  | (Ok _, s') => Q (view s')
  | (Exc _, s') => E (view s')
  end.

Definition all_backups (p : string) : list (string * string) :=
  [(backupRemoteManifest p, remoteManifestFile p);
   (backupLocalManifest p, localManifestFile p);
   (backupLocalSettings p, localSettingsFile p)].

(** An action that leaves the file system, [removeMap] and history alone. *)
Definition view_pres {A : Type} (m : M A) : Prop := forall s, view (snd (m s)) = view s.
(** The phases of the forward pass: before step 3 (nothing backed up, the
    three originals pending) and after step 6 (every backup allowed). *)
Definition phase_start (f0 : fsys) (h0 : list (fsys * list (string * string))) (p : string) :
    view_t -> Prop :=
  phase_inv f0 h0 [] [localSettingsFile p; localManifestFile p; remoteManifestFile p].
Definition phase_done (f0 : fsys) (h0 : list (fsys * list (string * string))) (p : string) :
    view_t -> Prop :=
  phase_inv f0 h0 (all_backups p) [].
(** The paths a run records in [fileList]. *)
Definition run_files (p : string) : list string :=
  [path_join [p; ".fx"; "configs"; "env.local.json"];
   path_join [p; "templates"; "appPackage"; "template.manifest.json"]].
(** A state property kept by an action, whatever its outcome. *)
Definition stable (I : state -> Prop) {A : Type} (m : M A) : Prop :=
  forall s, I s -> I (snd (m s)).

(** ** What a successful run moves and what it touches

    [moved_inv f0 D P v]: the files in [P] still hold their original content
    from [f0]; for every pair [(b, o)] in [D] the original [o] is gone and, if
    it existed, [removeMap] records [b -> o]. *)
Definition moved_inv (f0 : fsys) (D : list (string * string)) (P : list string) (v : view_t) : Prop :=
  let '(f, rm, _) := v in
  (forall o, In o P -> fs_lookup f o = fs_lookup f0 o) /\
  (forall b o, In (b, o) D -> fs_lookup f o = None /\ (fs_lookup f0 o <> None -> In (b, o) rm)).

(** Each legacy file still holds its original content or has its backup
    recorded in [removeMap]. *)
Definition intact_or_saved (f0 : fsys) (p : string) (v : view_t) : Prop :=
  let '(f, rm, _) := v in
  forall b o, In (b, o) (all_backups p) -> fs_lookup f o = fs_lookup f0 o \/ In (b, o) rm.

(** The legacy files the run backs up and removes. *)
Definition legacy (p : string) : list string := [localSettingsFile p; localManifestFile p; remoteManifestFile p].

(** Every path a run on project [p] writes, copies to or removes. *)
Definition touched (p : string) : list string :=
  [localEnvConfigFile p; getManifestTemplatePath p; localSettingsFile p; localManifestFile p;
   remoteManifestFile p; path_join [p; ".fx"; "configs"; "env.local.json"];
   path_join [p; "templates"; "appPackage"; "template.manifest.json"];
   path_join [p; backupFolder]].

(** The trees [JSON.parse] produces: no object holds a key twice. *)
Fixpoint keys_distinct (ks : list string) : bool :=
  match ks with
  | [] => true
  | k :: t => negb (existsb (String.eqb k) t) && keys_distinct t
  end.

Fixpoint json_wf (j : json) : bool :=
  match j with
  | JArr l => forallb json_wf l
  | JObj kvs => keys_distinct (map fst kvs) && forallb (fun kv => json_wf (snd kv)) kvs
  | _ => true
  end.

(** ** A sample legacy project

    Project settings, local settings, and the local and remote manifest
    templates of a non-SPFx project at [/proj]; [demo_run fault] runs the
    migration on it with the [fault]-th failable file operation failing. *)
Definition demo_project : string := "/proj".

Definition demo_fs : fsys :=
  [(path_join [demo_project; ".fx"; "configs"; "projectSettings.json"], CText "{}");
   (localSettingsFile demo_project, CText "{}");
   (localManifestFile demo_project, CJson (JObj [("id", JNum 1)]));
   (remoteManifestFile demo_project, CJson (JObj [("id", JNum 1)]))].

Definition demo_load (inp : Inputs) (f : fsys) : ProjectSettings + error :=
  inl (mkSettings "app" false).

Definition demo_parse (c : content) : option json :=
  match c with CJson j => Some j | CText _ => None end.

Definition demo_inputs : Inputs := mkInputs (Some demo_project) VSCode.

Definition demo_run (fault : option nat) : outcome bool * state :=
  consolidateLocalRemote demo_parse demo_load "%s" "%s" "/res" demo_inputs demo_project
    (mkState demo_fs [] [] "" None [] 0 fault []).

(** * Proofs *)

(** Sanity checks of the embedding on small inputs. *)
Example diff_ex1 :
  diff (JObj [("a", JArr [JNum 1; JNum 2])]) (JObj [("a", JArr [JNum 2; JNum 1])]) = false.
Proof. reflexivity. Qed.
Example diff_ex2 :
  diff (JObj [("description", JStr "x"); ("id", JNum 3)])
       (JObj [("description", JStr "y"); ("id", JNum 3)]) = true.
Proof. reflexivity. Qed.
Example diff_ex3 : diff (JObj [("name", JNum 1)]) (JObj [("x", JNum 2)]) = true.
Proof. reflexivity. Qed.
Example diff_ex4 : diff (JObj [("length", JNum 1)]) (JArr [JNum 5]) = true.
Proof. reflexivity. Qed.
Example diff_ex5 : own_entries (JArr [JNull; JBool true]) = [("0", JNull); ("1", JBool true)].
Proof. reflexivity. Qed.
Example regex_ex1 : replaceSPFxComponentId "https://x/?componentId=abc123%26forceLocale" = "abc123".
Proof. reflexivity. Qed.
Example regex_ex2 : replaceSPFxComponentId "componentId=ABC%26" = "".
Proof. reflexivity. Qed.
Example format_ex1 : util_format "a%sb%sc%26" ["X"; "Y"] = "aXbYc%26".
Proof. reflexivity. Qed.
Example format_ex2 : util_format "a%sb" ["X"; "Y"] = "aXb Y".
Proof. reflexivity. Qed.
Example format_ex3 : util_format "none" ["X"; "Y"] = "none X Y".
Proof. reflexivity. Qed.

(** ** The single-flight latch *)

Lemma methods_has_nonempty (m : string) : methods_has m = true -> String.eqb m "" = false.
Proof.
  unfold methods_has, methods; simpl.
  destruct (String.eqb_spec m "getProjectConfig") as [->|_]; [reflexivity|].
  destruct (String.eqb_spec m "checkPermission") as [->|_]; [reflexivity|].
  discriminate.
Qed.

Lemma checkMethod_sets_flag (flag : bool) (m : string) :
  methods_has m = true -> snd (checkMethod flag (Some m)) = true.
Proof.
  intros Hm. unfold checkMethod.
  rewrite (methods_has_nonempty m Hm), Hm. destruct flag; reflexivity.
Qed.

(** C8: after a call with an allow-listed method, a second such call never
    fires the consent prompt again: [checkMethod] answers [false]. *)
Theorem checkMethod_second_call_blocked (flag : bool) (m1 m2 : string) :
  methods_has m1 = true -> methods_has m2 = true ->
  fst (checkMethod (snd (checkMethod flag (Some m1))) (Some m2)) = false.
Proof.
  intros H1 H2. rewrite (checkMethod_sets_flag flag m1 H1).
  unfold checkMethod. rewrite (methods_has_nonempty m2 H2), H2. reflexivity.
Qed.

Lemma checkMethod_second_call_blocked_witness :
  methods_has "getProjectConfig" = true /\ methods_has "checkPermission" = true /\
  fst (checkMethod (snd (checkMethod false (Some "getProjectConfig"))) (Some "checkPermission"))
  = false.
Proof.
  split; [reflexivity|]. split; [reflexivity|].
  apply (checkMethod_second_call_blocked false "getProjectConfig" "checkPermission");
    reflexivity.
Defined.

(** ** The detector *)

(** C2: with the [inputs] found in [ctx.arguments], the detector answers
    [true] exactly when the flag is on, the project path is non-empty, the
    [.fx] folder exists and the unified template does not; without the
    marker folder, or with the unified template present, it answers [false]. *)
Theorem needConsolidateLocalRemote_spec (flag : bool) (args : list arg) (f : fsys) (sel : arg) :
  select_inputs args = Some sel ->
  (needConsolidateLocalRemote flag args f = Some true <->
     flag = true /\
     exists p, arg_projectPath sel = Some p /\ p <> "" /\
               fs_exists f (path_join [p; ".fx"]) = true /\
               fs_exists f (path_join [p; "templates"; "appPackage"; "manifest.template.json"]) = false)
  /\ (forall p, arg_projectPath sel = Some p -> fs_exists f (path_join [p; ".fx"]) = false ->
        needConsolidateLocalRemote flag args f = Some false)
  /\ (forall p, arg_projectPath sel = Some p ->
        fs_exists f (path_join [p; "templates"; "appPackage"; "manifest.template.json"]) = true ->
        needConsolidateLocalRemote flag args f = Some false).
Proof.
  intros Hsel. unfold needConsolidateLocalRemote. rewrite Hsel.
  split; [|split].
  - destruct flag; simpl.
    + destruct (arg_projectPath sel) as [p|] eqn:Hp.
      * destruct p as [|c p'].
        -- split; [discriminate|]. intros [_ [p [Hq [Hne _]]]].
           injection Hq as <-. contradiction.
        -- destruct (fs_exists f (path_join [String c p'; ".fx"])) eqn:Hfx; simpl.
           ++ destruct (fs_exists f (path_join [String c p'; "templates"; "appPackage";
                                                "manifest.template.json"])) eqn:Ht; simpl.
              ** split; [discriminate|]. intros [_ [p [Hq [_ [_ Ht']]]]].
                 injection Hq as <-. congruence.
              ** split; [|reflexivity]. intros _. split; [reflexivity|].
                 exists (String c p'). repeat split; auto. discriminate.
           ++ split; [discriminate|]. intros [_ [p [Hq [_ [Hfx' _]]]]].
              injection Hq as <-. congruence.
      * split; [discriminate|]. intros [_ [p [Hq _]]]. discriminate.
    + split; [discriminate|]. intros [Hf _]. discriminate.
  - intros p Hp Hfx. destruct flag; simpl; [|reflexivity].
    rewrite Hp. destruct p as [|c p']; [reflexivity|]. rewrite Hfx. reflexivity.
  - intros p Hp Ht. destruct flag; simpl; [|reflexivity].
    rewrite Hp. destruct p as [|c p']; [reflexivity|].
    destruct (fs_exists f (path_join [String c p'; ".fx"])); simpl; [|reflexivity].
    rewrite Ht. reflexivity.
Qed.

Lemma needConsolidateLocalRemote_spec_witness :
  select_inputs [ArgInputs (mkInputs (Some "/proj") VSCode); ArgCtx]
    = Some (ArgInputs (mkInputs (Some "/proj") VSCode)) /\
  needConsolidateLocalRemote true [ArgInputs (mkInputs (Some "/proj") VSCode); ArgCtx]
    [("/proj/.fx/configs/localSettings.json", CText "ls")] = Some true.
Proof.
  split; [reflexivity|].
  apply (proj2 (proj1 (needConsolidateLocalRemote_spec true
           [ArgInputs (mkInputs (Some "/proj") VSCode); ArgCtx]
           [("/proj/.fx/configs/localSettings.json", CText "ls")]
           (ArgInputs (mkInputs (Some "/proj") VSCode)) eq_refl))).
  split; [reflexivity|]. exists "/proj". repeat split; try reflexivity. discriminate.
Defined.

(** ** A failed settings load *)

(** C10: when [loadProjectSettings] fails, [consolidateLocalRemote] records
    the error in [ctx.result] and returns [false] without any file operation:
    the file system is unchanged, and [fileList] and [removeMap] stay empty. *)
Theorem consolidate_load_failure (parse_template : content -> option json)
    (loadProjectSettings : Inputs -> fsys -> ProjectSettings + error)
    (tplContent tplConfig resourceFolder : string) (inp : Inputs) (p : string)
    (s : state) (e : error) :
  loadProjectSettings inp (st_fs s) = inr e ->
  let '(r, s') := consolidateLocalRemote parse_template loadProjectSettings tplContent tplConfig
                    resourceFolder inp p s in
  r = Ok false /\ st_result s' = Some e /\ st_fs s' = st_fs s /\
  st_fileList s' = [] /\ st_removeMap s' = [] /\ st_clock s' = st_clock s.
Proof.
  intros Hload. unfold consolidateLocalRemote, bind, emit, reset_run, get_fs.
  simpl. rewrite Hload. simpl. repeat split; reflexivity.
Qed.

Lemma consolidate_load_failure_witness :
  (fun (_ : Inputs) (_ : fsys) => @inr ProjectSettings error (LoadErr "settings.json"))
      (mkInputs (Some "/proj") VSCode) [] = inr (LoadErr "settings.json") /\
  let '(r, s') := consolidateLocalRemote (fun _ => None)
                    (fun _ _ => inr (LoadErr "settings.json")) "%s" "%s" "/res"
                    (mkInputs (Some "/proj") VSCode) "/proj"
                    (mkState [] [] [] "" None [] 0 None []) in
  r = Ok false /\ st_result s' = Some (LoadErr "settings.json") /\ st_fs s' = [] /\
  st_fileList s' = [] /\ st_removeMap s' = [] /\ st_clock s' = 0.
Proof.
  split; [reflexivity|].
  exact (consolidate_load_failure (fun _ => None) (fun _ _ => inr (LoadErr "settings.json"))
           "%s" "%s" "/res" (mkInputs (Some "/proj") VSCode) "/proj"
           (mkState [] [] [] "" None [] 0 None []) (LoadErr "settings.json") eq_refl).
Defined.

(** ** The consent loop *)

Definition prompt_event (showModal : bool) : event :=
  ShowMessage "warn" "core.consolidateLocalRemote.Message" showModal [upgradeButton; LearnMore].

(** The events of [k] rounds of "Learn More" and a last prompt, most recent
    first. *)
Fixpoint loop_events (showModal : bool) (k : nat) : list event :=
  match k with
  | O => [prompt_event showModal]
  | S k' => (loop_events showModal k' ++ [OpenUrl LearnMoreLink; prompt_event showModal])%list
  end.

Definition cancel_guidance (sel : arg) : list event :=
  match arg_platform sel with
  | Some VSCode => [LogWarning noticeVSCode]
  | _ => [LogWarning noticeCLIOldVersion; LogWarning noticeCLI]
  end.

Definition is_openUrl (ev : event) : bool := match ev with OpenUrl _ => true | _ => false end.
Definition count_openUrl (evs : list event) : nat := length (filter is_openUrl evs).

Definition with_events (evs : list event) (s : state) : state :=
  mkState (st_fs s) (st_fileList s) (st_removeMap s) (st_moveFiles s) (st_result s)
          (evs ++ st_events s)%list (st_clock s) (st_fault s) (st_hist s).

Lemma consent_learn_more (showModal : bool) (k : nat) (a : option string)
    (rest : list (option string)) (s : state) :
  is_answer a LearnMore = false ->
  consent showModal (repeat (Some LearnMore) k ++ a :: rest)%list s
  = (Ok (Some a), with_events (loop_events showModal k) s).
Proof.
  intros Ha. revert s. induction k as [|k IH]; intros s; simpl.
  - unfold bind, emit. simpl. rewrite Ha. reflexivity.
  - unfold bind, emit at 1. simpl. rewrite IH.
    unfold with_events, add_event; simpl. rewrite <- app_assoc. reflexivity.
Qed.

Lemma count_openUrl_app (l1 l2 : list event) :
  count_openUrl (l1 ++ l2) = count_openUrl l1 + count_openUrl l2.
Proof. unfold count_openUrl. rewrite filter_app, length_app. reflexivity. Qed.

Lemma count_openUrl_skip (ev : event) (l : list event) :
  is_openUrl ev = false -> count_openUrl (ev :: l) = count_openUrl l.
Proof. intros H. unfold count_openUrl. simpl. rewrite H. reflexivity. Qed.

Lemma count_openUrl_loop (showModal : bool) (k : nat) :
  count_openUrl (loop_events showModal k) = k.
Proof.
  induction k as [|k IH]; [reflexivity|].
  cbn [loop_events]. rewrite count_openUrl_app, IH.
  change (count_openUrl [OpenUrl LearnMoreLink; prompt_event showModal]) with 1. lia.
Qed.

(** C5: answers "Learn More" [k] times and then anything but "Learn More"
    or "Upgrade": the documentation link is opened [k] times and the prompt
    re-presented each time; the loop then ends with the cancellation error in
    [ctx.result], the platform's guidance printed, and no file operation. *)
Theorem upgrade_cancel_after_learn_more (parse_template : content -> option json)
    (loadProjectSettings : Inputs -> fsys -> ProjectSettings + error)
    (tplContent tplConfig resourceFolder : string) (next : M unit)
    (args : list arg) (sel : arg) (showModal : bool) (k : nat) (a : option string)
    (rest : list (option string)) (s : state) :
  select_inputs args = Some sel ->
  is_answer a LearnMore = false -> is_answer a upgradeButton = false ->
  let '(r, s') := upgrade parse_template loadProjectSettings tplContent tplConfig resourceFolder
                    next args showModal (repeat (Some LearnMore) k ++ a :: rest)%list s in
  r = Ok tt /\ st_fs s' = st_fs s /\ st_clock s' = st_clock s /\
  st_result s' = Some ConsolidateCanceledError /\
  st_events s' = (cancel_guidance sel ++
                  [LogWarning cancelledMessage; Telemetry "ProjectConsolidateNotification:Cancel"] ++
                  loop_events showModal k ++ st_events s)%list /\
  count_openUrl (st_events s') = k + count_openUrl (st_events s).
Proof.
  intros Hsel Hlm Hup. unfold upgrade, bind at 1.
  rewrite (consent_learn_more showModal k a rest s Hlm).
  rewrite Hup. cbn -[loop_events count_openUrl].
  unfold outputCancelMessage, bind, emit, set_result_m. cbn -[loop_events count_openUrl].
  rewrite Hsel. unfold cancel_guidance.
  destruct (arg_platform sel) as [[| |]|]; cbn -[loop_events count_openUrl];
    (split; [reflexivity|]); (split; [reflexivity|]); (split; [reflexivity|]);
    (split; [reflexivity|]); (split; [reflexivity|]);
    repeat (rewrite count_openUrl_skip by reflexivity);
    rewrite count_openUrl_app, count_openUrl_loop; reflexivity.
Qed.

Lemma upgrade_cancel_after_learn_more_witness :
  select_inputs [ArgInputs (mkInputs (Some "/proj") CLI)]
    = Some (ArgInputs (mkInputs (Some "/proj") CLI)) /\
  is_answer None LearnMore = false /\ is_answer None upgradeButton = false /\
  let '(r, s') := upgrade (fun _ => None) (fun _ _ => inr (LoadErr "settings.json"))
                    "%s" "%s" "/res" (ret tt) [ArgInputs (mkInputs (Some "/proj") CLI)] true
                    (repeat (Some LearnMore) 2 ++ [None])%list
                    (mkState [("/proj/.fx/configs/localSettings.json", CText "ls")]
                             [] [] "" None [] 0 None []) in
  r = Ok tt /\ st_fs s' = [("/proj/.fx/configs/localSettings.json", CText "ls")] /\
  st_clock s' = 0 /\ st_result s' = Some ConsolidateCanceledError /\
  st_events s' = (cancel_guidance (ArgInputs (mkInputs (Some "/proj") CLI)) ++
                  [LogWarning cancelledMessage; Telemetry "ProjectConsolidateNotification:Cancel"] ++
                  loop_events true 2 ++ [])%list /\
  count_openUrl (st_events s') = 2 + count_openUrl [].
Proof.
  split; [reflexivity|]. split; [reflexivity|]. split; [reflexivity|].
  exact (upgrade_cancel_after_learn_more (fun _ => None)
           (fun _ _ => inr (LoadErr "settings.json")) "%s" "%s" "/res" (ret tt)
           [ArgInputs (mkInputs (Some "/proj") CLI)] (ArgInputs (mkInputs (Some "/proj") CLI))
           true 2 None []
           (mkState [("/proj/.fx/configs/localSettings.json", CText "ls")] [] [] "" None [] 0 None [])
           eq_refl eq_refl eq_refl).
Defined.

(** ** The manifest comparison never aborts the run *)

Definition differentManifestWarning : event :=
  ShowMessage "warn" "core.consolidateLocalRemote.DifferentManifest" false ["OK"].

(** What a step may change and still leave the run's bookkeeping alone. *)
Definition same_run (s s' : state) : Prop :=
  st_fs s' = st_fs s /\ st_fileList s' = st_fileList s /\ st_removeMap s' = st_removeMap s /\
  st_moveFiles s' = st_moveFiles s /\ st_result s' = st_result s /\ st_hist s' = st_hist s.

Ltac split_matches :=
  repeat match goal with
         | |- context [match ?x with _ => _ end] =>
             lazymatch x with
             | context [match _ with _ => _ end] => fail
             | _ => destruct x eqn:?; cbn beta iota
             end
         end.

Lemma compare_total (parse_template : content -> option json) (lf rf : string) (s : state) :
  let '(r, s') := compareLocalAndRemoteManifest parse_template lf rf s in
  r = Ok tt /\ same_run s s' /\
  (st_events s' = st_events s \/
   st_events s' = differentManifestWarning :: st_events s \/
   st_events s' = TelemetryError "ProjectConsolidateCheckManifestError" :: st_events s).
Proof.
  unfold compareLocalAndRemoteManifest, try_catch, bind, readFile, failable, lift_opt,
    ret, throw, emit.
  split_matches; simpl;
    (split; [reflexivity|]); (split; [repeat split; reflexivity|]); tauto.
Qed.


(** ** The structural manifest diff *)

Lemma ignored_iff (k : string) : ignored k = true <-> In k ignoreKeys.
Proof.
  unfold ignored. rewrite existsb_exists. split.
  - intros [x [Hx Heq]]. apply String.eqb_eq in Heq. subst. exact Hx.
  - intros H. exists k. split; [exact H | apply String.eqb_refl].
Qed.

Lemma all_fields_forallb (f : string -> json -> bool) (l : list (string * json)) :
  all_fields f l = forallb (fun kv => f (fst kv) (snd kv)) l.
Proof. induction l as [|[k v] t IH]; simpl; [reflexivity | rewrite IH; reflexivity]. Qed.

Lemma all_items_forallb (g : string -> json -> bool) (i : nat) (l : list json) :
  all_items (fun j v => g (string_of_nat j) v) i l =
  forallb (fun kv => g (fst kv) (snd kv)) (indexed i l).
Proof.
  revert i. induction l as [|v t IH]; intros i; simpl; [reflexivity | rewrite IH; reflexivity].
Qed.

Lemma all_chars_forallb (g : string -> json -> bool) (i : nat) (s : string) :
  all_chars (fun j c => g (string_of_nat j) (JStr c)) i s =
  forallb (fun kv => g (fst kv) (snd kv)) (indexed_chars i s).
Proof.
  revert i. induction s as [|c t IH]; intros i; simpl; [reflexivity | rewrite IH; reflexivity].
Qed.

Lemma all_fields_ext (f g : string -> json -> bool) (l : list (string * json)) :
  (forall k v, f k v = g k v) -> all_fields f l = all_fields g l.
Proof. intros H. induction l as [|[k v] t IH]; simpl; [reflexivity | rewrite H, IH; reflexivity]. Qed.

Lemma all_items_ext (f g : nat -> json -> bool) (i : nat) (l : list json) :
  (forall j v, f j v = g j v) -> all_items f i l = all_items g i l.
Proof.
  intros H. revert i. induction l as [|v t IH]; intros i; simpl;
    [reflexivity | rewrite H, IH; reflexivity].
Qed.

Ltac loop_body_eq :=
  intros; unfold field_ok, vm_bool;
  match goal with |- _ || _ = _ || _ => f_equal end;
  match goal with v : json |- _ => destruct v end; try reflexivity;
  match goal with |- context [js_get ?b ?k] => destruct (js_get b k) as [[]|] end;
  reflexivity.

(** One unfolding of [diff]: the key counts agree and every own entry of the
    first tree passes the loop body. *)
Lemma diff_unfold (a b : json) :
  diff a b = Nat.eqb (key_count a) (key_count b) &&
             forallb (fun kv => field_ok b (fst kv) (snd kv)) (own_entries a).
Proof.
  destruct a as [| | | s | l | kvs]; try reflexivity.
  - simpl own_entries. rewrite <- (all_chars_forallb (field_ok b)). reflexivity.
  - simpl own_entries. rewrite <- (all_items_forallb (field_ok b)).
    simpl diff. f_equal. apply all_items_ext. loop_body_eq.
  - simpl own_entries. rewrite <- (all_fields_forallb (field_ok b)).
    simpl diff. f_equal. apply all_fields_ext. loop_body_eq.
Qed.

Lemma list_sum_in_le (x : nat) (l : list nat) : In x l -> x <= list_sum l.
Proof.
  induction l as [|y t IH]; simpl; [contradiction|].
  intros [->|H]; [lia | specialize (IH H); lia].
Qed.

Lemma in_indexed (i : nat) (l : list json) (k : string) (v : json) :
  In (k, v) (indexed i l) -> In v l.
Proof.
  revert i. induction l as [|x t IH]; intros i; simpl; [contradiction|].
  intros [H|H]; [injection H as _ <-; left; reflexivity | right; exact (IH _ H)].
Qed.

Lemma in_indexed_chars (i : nat) (s : string) (k : string) (v : json) :
  In (k, v) (indexed_chars i s) -> isObject (Some v) = false.
Proof.
  revert i. induction s as [|c t IH]; intros i; simpl; [contradiction|].
  intros [H|H]; [injection H as _ <-; reflexivity | exact (IH _ H)].
Qed.

Lemma own_entries_smaller (a : json) (k : string) (v : json) :
  In (k, v) (own_entries a) -> isObject (Some v) = true -> json_size v < json_size a.
Proof.
  intros H Hv. destruct a as [| | | s | l | kvs]; simpl in H |- *; try contradiction.
  - rewrite (in_indexed_chars _ _ _ _ H) in Hv. discriminate.
  - apply in_indexed in H.
    apply (in_map json_size) in H. apply list_sum_in_le in H. lia.
  - apply (in_map (fun kv => json_size (snd kv))) in H.
    apply list_sum_in_le in H. simpl in H. lia.
Qed.

Lemma value_match_scalar (v : json) (bv : option json) :
  isObject (Some v) = false -> (value_match v bv <-> js_strict_eq (Some v) bv = true).
Proof.
  intros Hv. split.
  - intros H. inversion H; subst; [congruence | assumption].
  - intros H. apply VM_strict; [rewrite Hv; intros [? _]; discriminate | exact H].
Qed.

Lemma vm_bool_iff (v : json) (bv : option json) :
  (isObject (Some v) = true -> forall w, diff v w = true <-> manifest_equiv v w) ->
  (vm_bool diff v bv = true <-> value_match v bv).
Proof.
  intros IH.
  destruct (isObject (Some v)) eqn:Hv.
  - specialize (IH eq_refl).
    destruct (isObject bv) eqn:Hb.
    + destruct bv as [w|]; [|discriminate].
      assert (Hvm : vm_bool diff v (Some w) = diff v w)
        by (destruct v; try discriminate; destruct w; try discriminate; reflexivity).
      rewrite Hvm, IH. split.
      * intros H. apply VM_nested; assumption.
      * intros H. inversion H; subst; [assumption|].
        exfalso. match goal with Hn : ~ _ |- _ => apply Hn end. split; assumption.
    + assert (Hvm : vm_bool diff v bv = js_strict_eq (Some v) bv)
        by (destruct v; try discriminate; destruct bv as [[]|]; try discriminate; reflexivity).
      rewrite Hvm. split.
      * intros H. apply VM_strict; [rewrite Hb; intros [_ ?]; discriminate | exact H].
      * intros H. inversion H; subst; [congruence | assumption].
  - assert (Hvm : vm_bool diff v bv = js_strict_eq (Some v) bv)
      by (destruct v; try discriminate; reflexivity).
    rewrite Hvm. symmetry. apply value_match_scalar. exact Hv.
Qed.

Lemma diff_equiv_bounded (n : nat) :
  forall a b, json_size a < n -> (diff a b = true <-> manifest_equiv a b).
Proof.
  induction n as [|n IHn]; intros a b Hs; [lia|].
  rewrite diff_unfold, andb_true_iff, Nat.eqb_eq, forallb_forall. split.
  - intros [Hk Hall]. constructor; [exact Hk|].
    intros k v Hin Hni.
    specialize (Hall (k, v) Hin). unfold field_ok in Hall. simpl in Hall.
    assert (Hi : ignored k = false)
      by (destruct (ignored k) eqn:E; [apply ignored_iff in E; contradiction | reflexivity]).
    rewrite Hi in Hall. simpl in Hall.
    apply (vm_bool_iff v); [|exact Hall].
    intros Hv w. apply IHn. pose proof (own_entries_smaller _ _ _ Hin Hv). lia.
  - intros H. inversion H as [a' b' Hk Hall]; subst. split; [exact Hk|].
    intros [k v] Hin. unfold field_ok. simpl.
    destruct (ignored k) eqn:Hi; [reflexivity|]. simpl.
    apply (vm_bool_iff v).
    + intros Hv w. apply IHn. pose proof (own_entries_smaller _ _ _ Hin Hv). lia.
    + apply Hall; [exact Hin|]. intros Hin'. apply ignored_iff in Hin'. congruence.
Qed.

Lemma dec_digits_value (f : nat) :
  forall n acc, n < f -> exists m, forall a, dec_value a (dec_digits f n acc) = dec_value (a * m + n) acc.
Proof.
  induction f as [|f IH]; intros n acc Hn; [lia|].
  cbn [dec_digits].
  remember (ascii_of_nat (48 + n mod 10)) as d eqn:Ed.
  assert (Hd : nat_of_ascii d - 48 = n mod 10).
  { subst d. rewrite nat_ascii_embedding; [lia|]. pose proof (Nat.mod_upper_bound n 10). lia. }
  clear Ed.
  destruct (Nat.ltb n 10) eqn:E.
  - apply Nat.ltb_lt in E. exists 10. intros a. cbn [dec_value]. rewrite Hd.
    rewrite (Nat.mod_small n 10 E). reflexivity.
  - apply Nat.ltb_ge in E.
    assert (Hq : n / 10 < f) by (pose proof (Nat.div_lt n 10); lia).
    destruct (IH (n / 10) (String d acc) Hq) as [m Hm].
    exists (m * 10). intros a. rewrite Hm. cbn [dec_value]. rewrite Hd. f_equal.
    pose proof (Nat.div_mod_eq n 10).
    rewrite Nat.mul_assoc. lia.
Qed.

Lemma string_of_nat_value (n : nat) : dec_value 0 (string_of_nat n) = n.
Proof.
  unfold string_of_nat. destruct (dec_digits_value (S n) n "" (Nat.lt_succ_diag_r n)) as [m Hm].
  rewrite Hm. reflexivity.
Qed.

Lemma string_of_nat_inj (i j : nat) : string_of_nat i = string_of_nat j -> i = j.
Proof. intros H. rewrite <- (string_of_nat_value i), <- (string_of_nat_value j), H. reflexivity. Qed.

Lemma nth_key_string_of_nat (l : list json) :
  forall i j, nth_key i (string_of_nat (i + j)) l = nth_error l j.
Proof.
  induction l as [|v t IH]; intros i j; [destruct j; reflexivity|].
  simpl nth_key. destruct (String.eqb_spec (string_of_nat (i + j)) (string_of_nat i)) as [E|E].
  - apply string_of_nat_inj in E. assert (j = 0) as -> by lia. reflexivity.
  - destruct j as [|j]; [rewrite Nat.add_0_r in E; contradiction|].
    replace (i + S j) with (S i + j) by lia. apply IH.
Qed.

Lemma dec_digits_head (f : nat) :
  forall n acc, exists x t, x < 10 /\ dec_digits (S f) n acc = String (ascii_of_nat (48 + x)) t.
Proof.
  induction f as [|f IH]; intros n acc.
  - exists (n mod 10). eexists. split; [apply Nat.mod_upper_bound; lia|].
    simpl. destruct (Nat.ltb n 10); reflexivity.
  - cbn [dec_digits]. destruct (Nat.ltb n 10).
    + exists (n mod 10). eexists. split; [apply Nat.mod_upper_bound; lia | reflexivity].
    + apply IH.
Qed.

(** An array index is never one of the ignored keys. *)
Lemma ignored_string_of_nat (n : nat) : ignored (string_of_nat n) = false.
Proof.
  unfold string_of_nat. destruct (dec_digits_head n n "") as [x [t [Hx ->]]].
  do 10 (destruct x as [|x]; [reflexivity|]). lia.
Qed.

Lemma in_indexed_nth (l : list json) :
  forall i j v, nth_error l j = Some v -> In (string_of_nat (i + j), v) (indexed i l).
Proof.
  induction l as [|x t IH]; intros i j v H; [destruct j; discriminate|].
  destruct j as [|j]; simpl in H |- *.
  - injection H as ->. left. rewrite Nat.add_0_r. reflexivity.
  - right. replace (i + S j) with (S i + j) by lia. apply IH. exact H.
Qed.

Lemma js_strict_eq_scalar (v w : json) :
  isObject (Some v) = false -> js_strict_eq (Some v) (Some w) = true -> v = w.
Proof.
  destruct v, w; simpl; try discriminate; intros _ H; try reflexivity; f_equal.
  - apply Bool.eqb_prop. exact H.
  - apply Z.eqb_eq. exact H.
  - apply String.eqb_eq. exact H.
Qed.

Lemma diff_array_scalars (l l' : list json) :
  forallb (fun v => negb (isObject (Some v))) l = true ->
  diff (JArr l) (JArr l') = true -> l = l'.
Proof.
  intros Hsc. rewrite diff_unfold, andb_true_iff, Nat.eqb_eq, forallb_forall.
  intros [Hlen Hall]. simpl key_count in Hlen. simpl own_entries in Hall.
  apply nth_error_ext. intros j.
  destruct (nth_error l j) as [v|] eqn:E.
  - assert (Hv : isObject (Some v) = false).
    { rewrite forallb_forall in Hsc. specialize (Hsc v (nth_error_In _ _ E)).
      destruct (isObject (Some v)); [discriminate | reflexivity]. }
    destruct (nth_error l' j) as [w|] eqn:E'.
    + specialize (Hall _ (in_indexed_nth l 0 j v E)). unfold field_ok in Hall. simpl in Hall.
      rewrite ignored_string_of_nat in Hall. simpl in Hall.
      pose proof (nth_key_string_of_nat l' 0 j) as Hk. change (0 + j) with j in Hk.
      rewrite Hk, E' in Hall.
      assert (Hvm : vm_bool diff v (Some w) = js_strict_eq (Some v) (Some w))
        by (destruct v; try discriminate; reflexivity).
      rewrite Hvm in Hall. f_equal. exact (js_strict_eq_scalar v w Hv Hall).
    + apply nth_error_None in E'. assert (j < length l) by (apply nth_error_Some; congruence).
      lia.
  - apply nth_error_None in E. symmetry. apply nth_error_None. lia.
Qed.




(** ** The SPFx rewrite of the unified manifest *)

Lemma exec_componentId_skip (pre q : string) :
  no_marker_start pre q = true -> exec_componentId (pre ++ q) = exec_componentId q.
Proof.
  induction pre as [|c t IH]; [reflexivity|].
  cbn [no_marker_start]. intros H. apply andb_true_iff in H as [H1 H2].
  apply negb_true_iff in H1.
  change (String c t ++ q) with (String c (t ++ q)).
  cbn [exec_componentId]. change (String c (t ++ q)) with (String c t ++ q).
  rewrite H1. apply IH. exact H2.
Qed.

Lemma id_run_app (id r : string) :
  all_id_chars id = true -> id_run (id ++ String "%" r) = (id, String "%" r).
Proof.
  induction id as [|c t IH]; [reflexivity|].
  unfold all_id_chars. cbn [list_ascii_of_string forallb]. intros H.
  apply andb_true_iff in H as [Hc Ht].
  cbn [append id_run]. rewrite Hc. rewrite (IH Ht). reflexivity.
Qed.

Lemma substring_all (s : string) : substring 0 (String.length s) s = s.
Proof. induction s as [|c t IH]; [reflexivity|]. simpl. rewrite IH. reflexivity. Qed.

Lemma prefix_app (a b : string) : String.prefix a (a ++ b) = true.
Proof.
  induction a as [|c t IH]; [destruct b; reflexivity|].
  cbn [append String.prefix]. destruct (ascii_dec c c) as [_|n]; [exact IH | contradiction].
Qed.

Lemma substring_marker (x : string) :
  substring 12 (String.length ("componentId=" ++ x) - 12) ("componentId=" ++ x) = x.
Proof. simpl. rewrite Nat.sub_0_r. apply substring_all. Qed.

Lemma exec_componentId_marker (x : string) :
  exec_componentId ("componentId=" ++ x) =
  let (r, rest) := id_run x in
  if String.prefix "%26" rest then Some r else exec_componentId ("omponentId=" ++ x).
Proof.
  change ("componentId=" ++ x) with (String "c" ("omponentId=" ++ x)) at 1.
  cbn [exec_componentId].
  change (String "c" ("omponentId=" ++ x)) with ("componentId=" ++ x).
  rewrite prefix_app, substring_marker. reflexivity.
Qed.

(** [componentIdRegex.exec] finds the identifier right after the first
    ["componentId="] marker when it is followed by [%26]. *)
Lemma replaceSPFxComponentId_embedded (pre id post : string) :
  all_id_chars id = true ->
  no_marker_start pre ("componentId=" ++ id ++ "%26" ++ post) = true ->
  replaceSPFxComponentId (pre ++ "componentId=" ++ id ++ "%26" ++ post) = id.
Proof.
  intros Hid Hpre. unfold replaceSPFxComponentId.
  rewrite (exec_componentId_skip _ _ Hpre), exec_componentId_marker.
  change ("%26" ++ post) with (String "%" ("26" ++ post)).
  rewrite (id_run_app _ _ Hid).
  change (String "%" ("26" ++ post)) with ("%26" ++ post). rewrite prefix_app. reflexivity.
Qed.

Lemma assoc_set_assoc_neq (k k' : string) (v : json) (kvs : list (string * json)) :
  k <> k' -> assoc k (set_assoc k' v kvs) = assoc k kvs.
Proof.
  intros Hne. induction kvs as [|[k0 v0] t IH]; cbn [set_assoc assoc].
  - destruct (String.eqb_spec k k'); [contradiction | reflexivity].
  - destruct (String.eqb_spec k' k0) as [->|_]; cbn [assoc].
    + destruct (String.eqb_spec k k0); [contradiction | reflexivity].
    + rewrite IH. reflexivity.
Qed.

(** The rewrite of a manifest with one static tab and no configurable tab,
    when the tab's [entityId] is absent (and its [contentUrl] non-empty) or
    empty. *)
Lemma spfx_rewrite_single_static (tc tg : string) (mkvs tkvs : list (string * json)) (url : string) :
  assoc "staticTabs" mkvs = Some (JArr [JObj tkvs]) ->
  assoc "configurableTabs" mkvs = None ->
  assoc "contentUrl" tkvs = Some (JStr url) ->
  (url <> "" /\ assoc "entityId" tkvs = None \/ assoc "entityId" tkvs = Some (JStr "")) ->
  spfx_rewrite tc tg (JObj mkvs) =
  Some (JObj (set_assoc "staticTabs"
                (JArr [JObj (set_assoc "contentUrl"
                   (JStr (util_format tc [replaceSPFxComponentId url; replaceSPFxComponentId url]))
                   tkvs)]) mkvs)).
Proof.
  intros Hs Hc Hu Hid.
  assert (Hcid : (truthy (js_get (JObj tkvs) "contentUrl") &&
                  is_undefined (js_get (JObj tkvs) "entityId")
                  || is_empty_string (js_get (JObj tkvs) "entityId")) = true).
  { cbn [js_get]. rewrite Hu.
    destruct Hid as [[Hne ->] | ->]; [|cbn [is_empty_string]; apply orb_true_r].
    cbn. destruct (String.eqb_spec url ""); [contradiction | reflexivity]. }
  unfold spfx_rewrite, tabs_block, js_get_opt.
  cbn [js_get]. rewrite Hs.
  replace (length_pos (Some (JArr [JObj tkvs]))) with true by reflexivity.
  cbn [truthy andb].
  unfold static_tabs. unfold static_tab_step.
  rewrite Hcid. cbn [js_get]. rewrite Hu. cbn [js_string js_set].
  cbn [js_get]. rewrite (assoc_set_assoc_neq "configurableTabs" "staticTabs" _ _ ltac:(discriminate)), Hc.
  reflexivity.
Qed.

Lemma static_tab_step_entityId (tc : string) (tkvs : list (string * json)) (e : string) :
  assoc "entityId" tkvs = Some (JStr e) -> e <> "" ->
  static_tab_step tc (JObj tkvs) =
  Some (Some (JStr e), JObj (set_assoc "contentUrl" (JStr (util_format tc [e; e])) tkvs)).
Proof.
  intros He Hne. unfold static_tab_step. cbn [js_get]. rewrite He.
  cbn [is_undefined]. rewrite andb_false_r.
  destruct e as [|c t]; [contradiction|]. reflexivity.
Qed.

Lemma fs_lookup_exists (f : fsys) (p : string) (c : content) :
  fs_lookup f p = Some c -> fs_exists f p = true.
Proof.
  unfold fs_exists. induction f as [|[q c'] t IH]; cbn [fs_lookup existsb]; [discriminate|].
  destruct (String.eqb_spec q p) as [->|_]; intros H.
  - cbn [fst]. rewrite String.eqb_refl. reflexivity.
  - rewrite (IH H). apply orb_true_r.
Qed.

Lemma fs_lookup_write_same (f : fsys) (p : string) (c : content) :
  fs_lookup (fs_write f p c) p = Some c.
Proof. unfold fs_write. cbn [fs_lookup]. rewrite String.eqb_refl. reflexivity. Qed.

(** Step 2 on an SPFx project with no fault: the rewritten remote manifest is
    written to the unified manifest template path. *)
Lemma step_manifest_spfx (tc tg p : string) (ps : ProjectSettings) (s : state) (m m' : json) :
  isSPFxProject ps = true -> st_fault s = None ->
  fs_lookup (st_fs s) (remoteManifestFile p) = Some (CJson m) ->
  spfx_rewrite tc tg m = Some m' ->
  let '(r, s') := step_manifest tc tg p ps s in
  r = Ok tt /\ fs_lookup (st_fs s') (getManifestTemplatePath p) = Some (CJson m').
Proof.
  intros Hspfx Hf Hl Hr.
  unfold step_manifest, bind, pathExists, emit, readFile, parse_json, lift_opt, writeFile,
    failable, push_file, ret.
  rewrite (fs_lookup_exists _ _ _ Hl), Hspfx.
  cbn [add_event tick st_fault st_fs st_clock]. rewrite Hf.
  cbn [add_event tick st_fault st_fs st_clock]. rewrite Hl, Hr.
  cbn [add_event tick st_fault st_fs st_clock]. rewrite Hf.
  cbn [add_event tick set_fs set_fileList st_fault st_fs st_clock].
  split; [reflexivity|]. apply fs_lookup_write_same.
Qed.




(** ** The paths recorded for the rollback *)

(** C1 counterexample: the sample project with the copy of the local
    manifest into the backup folder (step 5, the sixth failable operation)
    failing. The rollback restores the local settings file and rethrows, but
    the local environment config file written in step 1,
    [.fx/configs/config.local.json], is left on disk: [fileList] recorded
    [.fx/configs/env.local.json] instead. *)
Lemma rollback_leaves_env_config_counterexample :
  let '(r, s') := demo_run (Some 6) in
  r = Exc (IoFault 6) /\
  fs_lookup (st_fs s') (localSettingsFile demo_project) = Some (CText "{}") /\
  fs_exists (st_fs s') (localEnvConfigFile demo_project) = true /\
  st_fileList s' = [path_join [demo_project; ".fx"; "configs"; "env.local.json"];
                    path_join [demo_project; "templates"; "appPackage"; "template.manifest.json"]].
Proof. vm_compute. repeat split; reflexivity. Qed.

Lemma append_cancel_l (a b c : string) : a ++ b = a ++ c -> b = c.
Proof. induction a as [|x t IH]; cbn [append]; [auto | intros H; injection H; auto]. Qed.

Lemma recorded_manifest_path_differs (p : string) :
  path_join [p; "templates"; "appPackage"; "template.manifest.json"] <> getManifestTemplatePath p.
Proof.
  unfold getManifestTemplatePath, path_join. cbn [String.concat].
  intros H. apply append_cancel_l in H. discriminate.
Qed.

(** C6 (code_bug): whichever branch step 2 takes, the path it appends to
    [fileList] is [templates/appPackage/template.manifest.json], never the
    unified manifest template path [templates/appPackage/manifest.template.json]
    that both branches write to. *)
Theorem step_manifest_records_wrong_path (tc tg p : string) (ps : ProjectSettings) (s : state) :
  let '(r, s') := step_manifest tc tg p ps s in
  (r = Ok tt ->
   st_fileList s' =
   (st_fileList s ++ [path_join [p; "templates"; "appPackage"; "template.manifest.json"]])%list) /\
  path_join [p; "templates"; "appPackage"; "template.manifest.json"] <> getManifestTemplatePath p.
Proof.
  unfold step_manifest, bind, pathExists, emit, readFile, parse_json, lift_opt, writeFile,
    copyFile, failable, push_file, ret, throw.
  split_matches; cbn [fst snd];
    (split; [|apply recorded_manifest_path_differs]);
    try (intros H; discriminate H);
    intros _; reflexivity.
Qed.

(** C6 counterexample: on the sample project (a non-SPFx project, so step 2
    copies the remote manifest), the run whose step 5 copy fails rolls back
    without removing the unified manifest template it wrote, since [fileList]
    holds [template.manifest.json]; the detector, which wanted the migration
    before the run, now reports that none is needed. *)
Lemma unified_manifest_left_counterexample :
  needConsolidateLocalRemote true [ArgInputs demo_inputs] demo_fs = Some true /\
  let '(r, s') := demo_run (Some 6) in
  r = Exc (IoFault 6) /\
  In (path_join [demo_project; "templates"; "appPackage"; "template.manifest.json"]) (st_fileList s') /\
  fs_lookup (st_fs s') (getManifestTemplatePath demo_project) = Some (CJson (JObj [("id", JNum 1)])) /\
  needConsolidateLocalRemote true [ArgInputs demo_inputs] (st_fs s') = Some false.
Proof.
  split; [vm_compute; reflexivity|].
  vm_compute. split; [reflexivity|]. split; [right; left; reflexivity|]. split; reflexivity.
Qed.

(** ** Every [removeMap] entry has its backup *)

Lemma string_app_assoc (a b c : string) : ((a ++ b) ++ c) = (a ++ (b ++ c)).
Proof. induction a as [|x t IH]; cbn [append]; [reflexivity | rewrite IH; reflexivity]. Qed.

Lemma prefix_cancel (a x y : string) : String.prefix (a ++ x) (a ++ y) = String.prefix x y.
Proof.
  induction a as [|c t IH]; [reflexivity|].
  cbn [append String.prefix]. destruct (ascii_dec c c) as [_|n]; [exact IH | contradiction].
Qed.

Ltac norm_paths :=
  unfold all_backups, backupRemoteManifest, backupLocalManifest, backupLocalSettings,
    remoteManifestFile, localManifestFile, localSettingsFile, getManifestTemplatePath,
    path_join, backupFolder in *;
  cbn [String.concat append] in *.

Ltac path_neq :=
  norm_paths; let H := fresh in intros H; apply append_cancel_l in H; discriminate H.

Ltac path_not_under :=
  unfold under; norm_paths; rewrite string_app_assoc, prefix_cancel; reflexivity.

Lemma fs_lookup_write_other (f : fsys) (x : string) (c : content) (y : string) :
  y <> x -> fs_lookup (fs_write f x c) y = fs_lookup f y.
Proof.
  intros Hne. unfold fs_write. cbn [fs_lookup].
  destruct (String.eqb_spec x y) as [E|_]; [congruence|].
  induction f as [|[q c'] t IH]; [reflexivity|].
  cbn [filter fst]. destruct (String.eqb_spec q x) as [->|Hq]; cbn [negb].
  - cbn [fs_lookup]. destruct (String.eqb_spec x y); [congruence | exact IH].
  - cbn [fs_lookup]. destruct (String.eqb q y); [reflexivity | exact IH].
Qed.

Lemma fs_lookup_remove_other (f : fsys) (x y : string) :
  y <> x -> under x y = false -> fs_lookup (fs_remove f x) y = fs_lookup f y.
Proof.
  intros Hne Hun. unfold fs_remove.
  induction f as [|[q c'] t IH]; [reflexivity|].
  cbn [filter fst]. cbn [fs_lookup].
  destruct (String.eqb_spec q x) as [->|Hq]; cbn [orb negb].
  - destruct (String.eqb_spec x y); [congruence | exact IH].
  - destruct (under x q) eqn:Hu; cbn [negb fs_lookup].
    + destruct (String.eqb_spec q y) as [->|_]; [congruence | exact IH].
    + destruct (String.eqb q y); [reflexivity | exact IH].
Qed.

Lemma in_map_set (k v : string) (m : list (string * string)) (bo : string * string) :
  In bo (map_set k v m) -> bo = (k, v) \/ In bo m.
Proof.
  induction m as [|[k' v'] t IH]; cbn [map_set].
  - intros [H|[]]. left. symmetry. exact H.
  - destruct (String.eqb_spec k k') as [->|_].
    + intros [H|H]; [left; symmetry; exact H | right; right; exact H].
    + intros [H|H]; [right; left; exact H|].
      destruct (IH H) as [E|E]; [left; exact E | right; right; exact E].
Qed.

Section PhaseLemmas.
Variable f0 : fsys.
Variable h0 : list (fsys * list (string * string)).

Lemma phase_mono (A A' : list (string * string)) (P P' : list string) (v : view_t) :
  phase_inv f0 h0 A P v -> incl A A' -> incl P' P -> phase_inv f0 h0 A' P' v.
Proof.
  destruct v as [[f rm] h]. intros (Hr & Hh & Ha & Hp) HA HP.
  split; [exact Hr|]. split; [exact Hh|]. split.
  - intros bo Hin. apply HA, Ha. exact Hin.
  - intros o Ho. apply Hp, HP. exact Ho.
Qed.

Lemma phase_write (A : list (string * string)) (P : list string) f rm h (x : string) (c : content) :
  phase_inv f0 h0 A P (f, rm, h) ->
  (forall b o, In (b, o) A -> b <> x) -> (forall o, In o P -> o <> x) ->
  phase_inv f0 h0 A P (fs_write f x c, rm, (fs_write f x c, rm) :: h).
Proof.
  intros (Hr & [new [-> Hnew]] & Ha & Hp) HA HP.
  assert (Hr' : restorable f0 (fs_write f x c) rm).
  { intros b o Hin. destruct (Hr b o Hin) as [H1 H2]. split; [exact H1|].
    rewrite fs_lookup_write_other; [exact H2 | apply (HA b o (Ha _ Hin))]. }
  split; [exact Hr'|]. split.
  - exists ((fs_write f x c, rm) :: new). split; [reflexivity|]. constructor; assumption.
  - split; [exact Ha|]. intros o Ho. rewrite fs_lookup_write_other; [apply Hp; exact Ho | apply HP; exact Ho].
Qed.

Lemma phase_remove (A : list (string * string)) (P : list string) f rm h (x : string) :
  phase_inv f0 h0 A P (f, rm, h) ->
  (forall b o, In (b, o) A -> b <> x /\ under x b = false) ->
  (forall o, In o P -> o <> x /\ under x o = false) ->
  phase_inv f0 h0 A P (fs_remove f x, rm, (fs_remove f x, rm) :: h).
Proof.
  intros (Hr & [new [-> Hnew]] & Ha & Hp) HA HP.
  assert (Hr' : restorable f0 (fs_remove f x) rm).
  { intros b o Hin. destruct (Hr b o Hin) as [H1 H2]. split; [exact H1|].
    destruct (HA b o (Ha _ Hin)) as [Hb1 Hb2]. rewrite fs_lookup_remove_other; assumption. }
  split; [exact Hr'|]. split.
  - exists ((fs_remove f x, rm) :: new). split; [reflexivity|]. constructor; assumption.
  - split; [exact Ha|]. intros o Ho. destruct (HP o Ho) as [H1 H2].
    rewrite fs_lookup_remove_other; [apply Hp; exact Ho | exact H1 | exact H2].
Qed.

Lemma phase_add (A : list (string * string)) (P : list string) f rm h (b o : string) :
  phase_inv f0 h0 A P (f, rm, h) ->
  fs_lookup f0 o <> None -> fs_lookup f b = fs_lookup f0 o ->
  phase_inv f0 h0 ((b, o) :: A) P (f, map_set b o rm, (f, map_set b o rm) :: h).
Proof.
  intros (Hr & [new [-> Hnew]] & Ha & Hp) H1 H2.
  assert (Hr' : restorable f0 f (map_set b o rm)).
  { intros b' o' Hin. destruct (in_map_set _ _ _ _ Hin) as [E|E].
    - injection E as -> ->. split; assumption.
    - apply Hr. exact E. }
  split; [exact Hr'|]. split.
  - exists ((f, map_set b o rm) :: new). split; [reflexivity|]. constructor; assumption.
  - split; [|exact Hp]. intros bo Hin. destruct (in_map_set _ _ _ _ Hin) as [E|E].
    + left. symmetry. exact E.
    + right. apply Ha. exact E.
Qed.

End PhaseLemmas.

(** ** Every [removeMap] entry has its backup: the phases of a run *)

Lemma vbind {A B : Type} (P Q R E : view_t -> Prop) (m : M A) (k : A -> M B) :
  vtriple P m Q E -> (forall a, vtriple Q (k a) R E) -> vtriple P (bind m k) R E.
Proof.
  intros Hm Hk s Hs. unfold bind. specialize (Hm s Hs).
  destruct (m s) as [[a|e] s']; [apply Hk; exact Hm | exact Hm].
Qed.

Ltac norm_view :=
  unfold view in *;
  cbn [st_fs st_removeMap st_hist st_fault st_clock tick add_event set_fs set_fileList
       set_moveFiles set_removeMap] in *.

Section Phases.
Variable f0 : fsys.
Variable h0 : list (fsys * list (string * string)).

Lemma backup_step_phase (A Afin : list (string * string)) (P' : list string) (o b name : string) :
  incl ((b, o) :: A) Afin ->
  b <> o -> under o b = false ->
  (forall b' o', In (b', o') A -> b' <> b /\ b' <> o /\ under o b' = false) ->
  (forall o', In o' P' -> o' <> b /\ o' <> o /\ under o o' = false) ->
  vtriple (phase_inv f0 h0 A (o :: P'))
    (e <- pathExists o ;;
     if e then copy o b ;; remove o ;; add_move name ;; removeMap_set b o else ret tt)
    (phase_inv f0 h0 ((b, o) :: A) P') (phase_inv f0 h0 Afin []).
Proof.
  intros Hfin Hbo Hbu HA HP s Hs.
  assert (HAfin : incl A Afin) by (intros x Hx; apply Hfin; right; exact Hx).
  assert (Hnil : incl (@nil string) (o :: P')) by (intros x []).
  assert (Hw : forall c, phase_inv f0 h0 A (o :: P')
             (fs_write (st_fs s) b c, st_removeMap s, (fs_write (st_fs s) b c, st_removeMap s) :: st_hist s)).
  { intros c. apply phase_write; [exact Hs | |].
    - intros b' o' Hin. apply (HA b' o' Hin).
    - intros o' [<-|Hin]; [congruence | apply (HP o' Hin)]. }
  unfold bind, pathExists, copy, copyFile, remove, add_move, removeMap_set, ret, failable.
  split_matches; norm_view.
  all: try (eapply phase_mono; [exact Hs | exact HAfin | exact Hnil]).
  all: try (eapply phase_mono; [apply Hw | exact HAfin | exact Hnil]).
  all: try (eapply phase_mono; [exact Hs | intros x Hx; right; exact Hx | intros x Hx; right; exact Hx]).
  all: destruct Hs as (_ & _ & _ & Hp); pose proof (Hp o (or_introl eq_refl)) as Ho.
  all: match goal with Hc : fs_lookup _ _ = Some _ |- _ => rewrite Hc in Ho end.
  all: apply phase_add; [apply phase_remove | rewrite <- Ho; discriminate | ].
  all: try (rewrite fs_lookup_remove_other by (assumption || congruence);
            rewrite fs_lookup_write_same; exact Ho).
  all: try (eapply phase_mono; [apply Hw | intros x Hx; exact Hx | intros x Hx; right; exact Hx]).
  all: try (intros b' o' Hin; destruct (HA b' o' Hin) as (_ & H1 & H2); split; assumption).
  all: try (intros o' Hin; destruct (HP o' Hin) as (_ & H1 & H2); split; assumption).
Qed.


Lemma vt_view_pres {A : Type} (P Q E : view_t -> Prop) (m : M A) :
  view_pres m -> (forall v, P v -> Q v) -> (forall v, P v -> E v) -> vtriple P m Q E.
Proof.
  intros Hm HQ HE s Hs. specialize (Hm s). destruct (m s) as [[a|e] s'];
  cbn [snd] in Hm; rewrite Hm; [apply HQ | apply HE]; exact Hs.
Qed.

Lemma view_pres_emit (ev : event) : view_pres (emit ev).
Proof. intros s. reflexivity. Qed.

Lemma view_pres_step_compare (parse_template : content -> option json) (p : string) :
  view_pres (step_compare parse_template p).
Proof.
  intros s. unfold step_compare, bind, pathExists, ret.
  destruct (fs_exists (st_fs s) (localManifestFile p)); [|reflexivity].
  destruct (fs_exists (st_fs s) (remoteManifestFile p)); [|reflexivity].
  pose proof (compare_total parse_template (localManifestFile p) (remoteManifestFile p) s) as H.
  destruct (compareLocalAndRemoteManifest parse_template _ _ s) as [r s'].
  destruct H as (_ & (Hf & _ & Hr & _ & _ & Hh) & _). unfold view. cbn [snd].
  rewrite Hf, Hr, Hh. reflexivity.
Qed.

Lemma view_pres_tail (inp : Inputs) (p : string) :
  view_pres (emit (Telemetry "ProjectConsolidateBackupConfig") ;;
             emit (Telemetry "ProjectConsolidateUpgrade") ;;
             mv <- get_moveFiles ;;
             postConsolidate p inp mv).
Proof.
  intros s. unfold bind, emit, get_moveFiles, postConsolidate, ret.
  split_matches; reflexivity.
Qed.


Ltac pend_neq :=
  let o := fresh "o" in let Ho := fresh "Ho" in
  intros o Ho; simpl in Ho; destruct Ho as [<-|[<-|[<-|[]]]]; path_neq.

Ltac close_start Hs :=
  first [ exact Hs
        | eapply phase_mono; [exact Hs | intros ? [] | intros ? [] ]
        | apply phase_write; [exact Hs | intros ? ? [] | pend_neq ]
        | eapply phase_mono;
            [apply phase_write; [exact Hs | intros ? ? [] | pend_neq ] | intros ? [] | intros ? [] ] ].

Lemma step_env_phase (p : string) (ps : ProjectSettings) : vtriple (phase_start f0 h0 p) (step_env p ps) (phase_start f0 h0 p) (phase_done f0 h0 p).
Proof.
  intros s Hs. unfold phase_start, phase_done in *.
  unfold step_env, bind, emit, writeEnvConfig, push_file, ret, throw.
  split_matches; norm_view; try discriminate; close_start Hs.
Qed.

Lemma step_manifest_phase (tc tg : string) (p : string) (ps : ProjectSettings) :
  vtriple (phase_start f0 h0 p) (step_manifest tc tg p ps) (phase_start f0 h0 p) (phase_done f0 h0 p).
Proof.
  intros s Hs. unfold phase_start, phase_done in *.
  unfold step_manifest, bind, emit, pathExists, readFile, parse_json, lift_opt, writeFile,
    copyFile, push_file, ret, throw, failable.
  split_matches; norm_view; try discriminate; close_start Hs.
Qed.

Ltac incl_tac := let x := fresh "x" in let Hx := fresh "Hx" in
  intros x Hx; unfold all_backups; simpl in Hx |- *; tauto.

Ltac side_tac :=
  intros;
  repeat match goal with
         | H : In _ [] |- _ => destruct H
         | H : In _ (_ :: _) |- _ => destruct H as [H|H]
         | H : (_, _) = (_, _) |- _ => injection H as <- <-
         | H : _ = ?v |- _ => is_var v; subst v
         end;
  repeat split; first [path_neq | path_not_under].

Lemma forward_phase (parse_template : content -> option json) (tc tg : string)
    (inp : Inputs) (p : string) (ps : ProjectSettings) :
  vtriple (phase_start f0 h0 p) (forward parse_template tc tg inp p ps) (phase_done f0 h0 p) (phase_done f0 h0 p).
Proof.
  unfold forward.
  eapply vbind; [apply step_env_phase | intros _].
  eapply vbind; [apply step_manifest_phase | intros _].
  eapply vbind.
  { unfold step_backup_localSettings. eapply vbind.
    - apply vt_view_pres; [apply view_pres_emit | intros v Hv; exact Hv |].
      intros v Hv. eapply phase_mono; [exact Hv | intros ? [] | intros ? [] ].
    - intros _. unfold phase_start, phase_done.
      apply (backup_step_phase [] (all_backups p) [localManifestFile p; remoteManifestFile p]);
        [incl_tac | side_tac | side_tac | side_tac | side_tac]. }
  intros _. eapply vbind.
  { apply vt_view_pres; [apply view_pres_step_compare | intros v Hv; exact Hv |].
    intros v Hv. eapply phase_mono; [exact Hv | incl_tac | intros ? [] ]. }
  intros _. eapply vbind.
  { unfold step_backup_localManifest, phase_done.
    apply (backup_step_phase [(backupLocalSettings p, localSettingsFile p)] (all_backups p)
             [remoteManifestFile p]);
      [incl_tac | side_tac | side_tac | side_tac | side_tac]. }
  intros _. eapply vbind.
  { unfold step_backup_remote, phase_done.
    apply (backup_step_phase [(backupLocalManifest p, localManifestFile p);
                              (backupLocalSettings p, localSettingsFile p)] (all_backups p) []);
      [incl_tac | side_tac | side_tac | side_tac | side_tac]. }
  intros _. apply vt_view_pres; [apply view_pres_tail | intros v Hv; exact Hv | intros v Hv; exact Hv].
Qed.

Lemma restore_phase (A : list (string * string)) (l : list (string * string)) :
  (forall bo, In bo l -> forall b o, In (b, o) A -> b <> snd bo) ->
  vtriple (phase_inv f0 h0 A []) (iter (fun bo => copy (fst bo) (snd bo)) l)
    (phase_inv f0 h0 A []) (phase_inv f0 h0 A []).
Proof.
  induction l as [|[b o] t IH]; intros Hl.
  - intros s Hs. exact Hs.
  - cbn [iter]. eapply vbind.
    + intros s Hs. unfold copy, copyFile, failable.
      split_matches; norm_view; try exact Hs.
      all: apply phase_write; [exact Hs | | intros ? []].
      all: intros b' o' Hin; exact (Hl (b, o) (or_introl eq_refl) b' o' Hin).
    + intros _. apply IH. intros bo Hin. apply Hl. right. exact Hin.
Qed.

Lemma remove_all_phase (A : list (string * string)) (l : list string) :
  (forall x, In x l -> forall b o, In (b, o) A -> b <> x /\ under x b = false) ->
  vtriple (phase_inv f0 h0 A []) (iter remove l)
    (phase_inv f0 h0 A []) (phase_inv f0 h0 A []).
Proof.
  induction l as [|x t IH]; intros Hl.
  - intros s Hs. exact Hs.
  - cbn [iter]. eapply vbind.
    + intros s Hs. unfold remove, failable.
      split_matches; norm_view; try exact Hs.
      all: apply phase_remove; [exact Hs | | intros ? []].
      all: intros b o Hin; exact (Hl x (or_introl eq_refl) b o Hin).
    + intros _. apply IH. intros y Hin. apply Hl. right. exact Hin.
Qed.



Lemma stable_bind (I : state -> Prop) {A B : Type} (m : M A) (k : A -> M B) :
  stable I m -> (forall a, stable I (k a)) -> stable I (bind m k).
Proof.
  intros Hm Hk s Hs. unfold bind. specialize (Hm s Hs).
  destruct (m s) as [[a|e] s']; [apply Hk; exact Hm | exact Hm].
Qed.

Ltac fl_tac :=
  let s := fresh "s" in let Hs := fresh "Hs" in
  intros s Hs;
  unfold step_env, step_manifest, step_backup_localSettings, step_backup_localManifest,
    step_backup_remote, bind, emit, writeEnvConfig, push_file, pathExists, readFile,
    parse_json, lift_opt, writeFile, copy, copyFile, remove, add_move, removeMap_set,
    get_moveFiles, postConsolidate, ret, throw, failable;
  split_matches;
  cbn [snd st_fileList set_fs set_fileList tick add_event set_removeMap set_moveFiles] in *;
  first [ exact Hs
        | apply incl_app; [exact Hs | intros ? [<-|[]]; unfold run_files; simpl; tauto] ].

Lemma forward_files (parse_template : content -> option json) (tc tg : string)
    (inp : Inputs) (p : string) (ps : ProjectSettings) :
  stable (fun s => incl (st_fileList s) (run_files p)) (forward parse_template tc tg inp p ps).
Proof.
  unfold forward.
  apply stable_bind; [fl_tac | intros _].
  apply stable_bind; [fl_tac | intros _].
  apply stable_bind; [fl_tac | intros _].
  apply stable_bind.
  { intros s Hs. unfold step_compare, bind, pathExists, ret.
    destruct (fs_exists (st_fs s) (localManifestFile p)); [|exact Hs].
    destruct (fs_exists (st_fs s) (remoteManifestFile p)); [|exact Hs].
    pose proof (compare_total parse_template (localManifestFile p) (remoteManifestFile p) s) as H.
    destruct (compareLocalAndRemoteManifest parse_template _ _ s) as [r s'].
    destruct H as (_ & (_ & Hf & _) & _). cbn [snd]. rewrite Hf. exact Hs. }
  intros _.
  apply stable_bind; [fl_tac | intros _].
  apply stable_bind; [fl_tac | intros _].
  fl_tac.
Qed.

Lemma restore_files (l : list (string * string)) (s : state) :
  st_fileList (snd (iter (fun bo => copy (fst bo) (snd bo)) l s)) = st_fileList s.
Proof.
  revert s. induction l as [|bo t IH]; intros s; [reflexivity|].
  cbn [iter]. unfold bind.
  assert (Hc : st_fileList (snd (copy (fst bo) (snd bo) s)) = st_fileList s)
    by (unfold copy, copyFile, failable; split_matches; reflexivity).
  destruct (copy (fst bo) (snd bo) s) as [[u|e] s1]; cbn [snd] in *; [rewrite IH|]; exact Hc.
Qed.

Lemma rollback_phase (p : string) (s : state) :
  phase_inv f0 h0 (all_backups p) [] (view s) -> incl (st_fileList s) (run_files p) ->
  let '(_, s') := rollback p s in
  phase_inv f0 h0 (all_backups p) [] (view s') \/
  exists f rm h, st_hist s' = (fs_remove f (path_join [p; backupFolder]), rm) :: h /\
                 phase_inv f0 h0 (all_backups p) [] (f, rm, h).
Proof.
  intros Hs Hfl.
  assert (Hrm : forall bo, In bo (st_removeMap s) -> In bo (all_backups p))
    by (destruct Hs as (_ & _ & Ha & _); exact Ha).
  unfold rollback. unfold bind at 1. cbn [get_removeMap].
  pose proof (restore_phase (all_backups p) (st_removeMap s)) as H1.
  assert (Hside1 : forall bo, In bo (st_removeMap s) ->
                   forall b o, In (b, o) (all_backups p) -> b <> snd bo).
  { intros bo Hin b o Hbo. apply Hrm in Hin. revert Hin Hbo. unfold all_backups.
    intros [<-|[<-|[<-|[]]]] Hbo; cbn [snd]; revert Hbo; side_tac. }
  specialize (H1 Hside1 s Hs). pose proof (restore_files (st_removeMap s) s) as F1.
  unfold bind at 1.
  destruct (iter (fun bo => copy (fst bo) (snd bo)) (st_removeMap s) s) as [[u|e] s1];
    cbn [snd] in F1; [|left; exact H1].
  unfold bind at 1. cbn [get_fileList].
  assert (Hside2 : forall x, In x (st_fileList s1) ->
                   forall b o, In (b, o) (all_backups p) -> b <> x /\ under x b = false).
  { rewrite F1. intros x Hx b o Hbo. apply Hfl in Hx. revert Hx Hbo. unfold run_files, all_backups.
    side_tac. }
  pose proof (remove_all_phase (all_backups p) (st_fileList s1) Hside2 s1 H1) as H2.
  unfold bind at 1.
  destruct (iter remove (st_fileList s1) s1) as [[u'|e'] s2]; [|left; exact H2].
  unfold remove, failable. split_matches; norm_view.
  all: first [left; exact H2 | right; do 3 eexists; split; [reflexivity | exact H2]].
Qed.

Lemma report_phase (rf p : string) :
  vtriple (phase_inv f0 h0 (all_backups p) []) (generateUpgradeReport rf p)
    (phase_inv f0 h0 (all_backups p) []) (phase_inv f0 h0 (all_backups p) []).
Proof.
  intros s Hs. unfold generateUpgradeReport, try_catch, copyFile, failable, ret.
  split_matches; norm_view; try exact Hs.
  all: apply phase_write; [exact Hs | | intros ? []].
  all: unfold all_backups, upgradeReportName; side_tac.
Qed.
End Phases.

Lemma phase_hist (f0 : fsys) (h : list (fsys * list (string * string)))
    (A : list (string * string)) (P : list string) (f : fsys) rm h' :
  phase_inv f0 ((f0, []) :: h) A P (f, rm, h') ->
  exists new, snapshots_restorable f0 new /\ h' = (new ++ h)%list.
Proof.
  intros (_ & [new [-> Hn]] & _). exists (new ++ [(f0, [])])%list. split.
  - apply Forall_app. split; [exact Hn|]. constructor; [intros b o []| constructor].
  - rewrite <- app_assoc. reflexivity.
Qed.


(** * Further properties of the code *)

Lemma fs_lookup_remove_none (f : fsys) (x y : string) :
  fs_lookup f y = None -> fs_lookup (fs_remove f x) y = None.
Proof.
  unfold fs_remove. induction f as [|[q c] t IH]; [reflexivity|].
  cbn [fs_lookup filter fst]. destruct (String.eqb_spec q y) as [->|Hq]; [discriminate|].
  intros H. destruct (negb _); cbn [fs_lookup]; [|exact (IH H)].
  destruct (String.eqb_spec q y); [contradiction | exact (IH H)].
Qed.

Lemma fs_lookup_remove_same (f : fsys) (x : string) : fs_lookup (fs_remove f x) x = None.
Proof.
  unfold fs_remove. induction f as [|[q c] t IH]; [reflexivity|].
  cbn [filter fst]. destruct (String.eqb_spec q x) as [->|Hq]; cbn [orb negb]; [exact IH|].
  destruct (under x q); cbn [negb]; [exact IH|]. cbn [fs_lookup].
  destruct (String.eqb_spec q x); [contradiction | exact IH].
Qed.

Lemma fs_exists_false_lookup (f : fsys) (p : string) :
  fs_exists f p = false -> fs_lookup f p = None.
Proof.
  intros H. destruct (fs_lookup f p) eqn:E; [|reflexivity].
  rewrite (fs_lookup_exists f p c E) in H. discriminate.
Qed.

Lemma map_set_in (k v : string) (m : list (string * string)) : In (k, v) (map_set k v m).
Proof.
  induction m as [|[k' v'] t IH]; cbn [map_set]; [left; reflexivity|].
  destruct (String.eqb_spec k k') as [->|_]; [left; reflexivity | right; exact IH].
Qed.

Lemma map_set_keep (k v : string) (m : list (string * string)) (k' v' : string) :
  In (k', v') m -> k' <> k -> In (k', v') (map_set k v m).
Proof.
  induction m as [|[a b] t IH]; cbn [map_set]; [intros []|].
  intros [E|H] Hne.
  - injection E as -> ->. destruct (String.eqb_spec k k') as [->|_]; [contradiction | left; reflexivity].
  - destruct (String.eqb_spec k a) as [->|_]; right; [exact H | exact (IH H Hne)].
Qed.

Lemma vtriple_conj {A : Type} (P1 Q1 E1 P2 Q2 E2 : view_t -> Prop) (m : M A) :
  vtriple P1 m Q1 E1 -> vtriple P2 m Q2 E2 ->
  vtriple (fun v => P1 v /\ P2 v) m (fun v => Q1 v /\ Q2 v) (fun v => E1 v /\ E2 v).
Proof.
  intros H1 H2 s [Hs1 Hs2]. specialize (H1 s Hs1). specialize (H2 s Hs2).
  destruct (m s) as [[a|e] s']; split; assumption.
Qed.

Section Moved.
Variable f0 : fsys.

Lemma moved_write D P f rm h h' x c :
  moved_inv f0 D P (f, rm, h) ->
  (forall b o, In (b, o) D -> o <> x) -> (forall o, In o P -> o <> x) ->
  moved_inv f0 D P (fs_write f x c, rm, h').
Proof.
  intros (Hp & Hd) HD HP. split.
  - intros o Ho. rewrite fs_lookup_write_other by (apply HP; exact Ho). apply Hp. exact Ho.
  - intros b o Hbo. rewrite fs_lookup_write_other by (apply (HD b o Hbo)). apply Hd. exact Hbo.
Qed.

Lemma moved_remove D P f rm h h' x :
  moved_inv f0 D P (f, rm, h) ->
  (forall o, In o P -> o <> x /\ under x o = false) ->
  moved_inv f0 D P (fs_remove f x, rm, h').
Proof.
  intros (Hp & Hd) HP. split.
  - intros o Ho. destruct (HP o Ho) as [H1 H2].
    rewrite fs_lookup_remove_other by assumption. apply Hp. exact Ho.
  - intros b o Hbo. destruct (Hd b o Hbo) as [H1 H2]. split; [|exact H2].
    apply fs_lookup_remove_none. exact H1.
Qed.

Lemma moved_intact (p : string) D P v :
  moved_inv f0 D P v ->
  (forall b o, In (b, o) (all_backups p) -> In (b, o) D \/ In o P) ->
  intact_or_saved f0 p v.
Proof.
  destruct v as [[f rm] h]. intros (Hp & Hd) Hcov b o Hbo.
  destruct (Hcov b o Hbo) as [HD|HP].
  - destruct (Hd b o HD) as [H1 H2].
    destruct (fs_lookup f0 o) eqn:E0.
    + right. apply H2. discriminate.
    + left. rewrite H1. reflexivity.
  - left. apply Hp. exact HP.
Qed.

End Moved.

Ltac side_tac2 :=
  intros;
  repeat match goal with
         | H : In _ [] |- _ => destruct H
         | H : In _ (_ :: _) |- _ => destruct H as [H|H]
         | H : (_, _) = (_, _) |- _ => injection H as <- <-
         | H : _ = ?v |- _ => is_var v; subst v
         end;
  repeat split; first [path_neq | path_not_under].

Section Moved2.
Variable f0 : fsys.
Variable p : string.

Lemma backup_step_moved (D : list (string * string)) (P' : list string) (o b name : string) :
  b <> o -> under o b = false ->
  (forall b' o', In (b', o') D -> o' <> b /\ b' <> b) ->
  (forall o', In o' P' -> o' <> b /\ o' <> o /\ under o o' = false) ->
  (forall b' o', In (b', o') (all_backups p) -> In (b', o') D \/ In o' (o :: P')) ->
  vtriple (moved_inv f0 D (o :: P'))
    (e <- pathExists o ;;
     if e then copy o b ;; remove o ;; add_move name ;; removeMap_set b o else ret tt)
    (moved_inv f0 ((b, o) :: D) P') (intact_or_saved f0 p).
Proof.
  intros Hbo Hbu HD HP Hcov s Hs.
  assert (HE : forall v, moved_inv f0 D (o :: P') v -> intact_or_saved f0 p v)
    by (intros v Hv; exact (moved_intact f0 p D (o :: P') v Hv Hcov)).
  assert (Hw : forall c h', moved_inv f0 D (o :: P') (fs_write (st_fs s) b c, st_removeMap s, h')).
  { intros c h'. apply (moved_write f0 D (o :: P') _ _ (st_hist s)); [exact Hs | |].
    - intros b' o' Hin. apply (HD b' o' Hin).
    - intros o' [<-|Hin]; [congruence | apply (HP o' Hin)]. }
  pose proof Hs as (Hp & Hd).
  unfold bind, pathExists, copy, copyFile, remove, add_move, removeMap_set, ret, failable.
  split_matches; norm_view.
  all: try (apply HE; exact Hs).
  all: try (apply HE; apply Hw).
  all: split.
  all: try (intros o' Ho'; destruct (HP o' Ho') as (H1 & H2 & H3);
            rewrite fs_lookup_remove_other by assumption;
            rewrite fs_lookup_write_other by assumption; apply Hp; right; exact Ho').
  all: try (intros o' Ho'; apply Hp; right; exact Ho').
  all: intros b' o' [E|Hin].
  all: try (destruct (HD b' o' Hin) as [H1 H2]; destruct (Hd b' o' Hin) as [H3 H4];
            split; [ apply fs_lookup_remove_none; rewrite fs_lookup_write_other by exact H1; exact H3
                   | intros H5; apply map_set_keep; [apply H4, H5 | exact H2] ]).
  all: try exact (Hd b' o' Hin).
  all: injection E as <- <-.
  all: try (split; [apply fs_lookup_remove_same | intros _; apply map_set_in]).
  match goal with H : fs_exists _ _ = false |- _ => apply fs_exists_false_lookup in H end.
  split; [assumption|]. intros Hne. exfalso. apply Hne.
  rewrite <- (Hp o (or_introl eq_refl)). assumption.
Qed.


Ltac pend_neq2 :=
  let o := fresh "o" in let Ho := fresh "Ho" in
  intros o Ho; simpl in Ho; destruct Ho as [<-|[<-|[<-|[]]]]; path_neq.

Ltac cov_tac := intros ? ? Hcv; unfold all_backups, legacy in *; simpl in Hcv |- *;
  destruct Hcv as [Hcv|[Hcv|[Hcv|[]]]]; injection Hcv as <- <-; tauto.

Ltac close_moved Hs :=
  first [ exact Hs
        | apply (moved_write f0 [] (legacy p) _ _ _ _ _ _ Hs); [intros ? ? [] | pend_neq2 ]
        | apply (moved_intact f0 p [] (legacy p)); [exact Hs | cov_tac]
        | apply (moved_intact f0 p [] (legacy p));
            [apply (moved_write f0 [] (legacy p) _ _ _ _ _ _ Hs); [intros ? ? [] | pend_neq2 ] | cov_tac] ].

Lemma step_env_moved (ps : ProjectSettings) :
  vtriple (moved_inv f0 [] (legacy p)) (step_env p ps) (moved_inv f0 [] (legacy p)) (intact_or_saved f0 p).
Proof.
  intros s Hs.
  unfold step_env, bind, emit, writeEnvConfig, push_file, ret, throw.
  split_matches; norm_view; try discriminate; close_moved Hs.
Qed.

Lemma step_manifest_moved (tc tg : string) (ps : ProjectSettings) :
  vtriple (moved_inv f0 [] (legacy p)) (step_manifest tc tg p ps) (moved_inv f0 [] (legacy p))
    (intact_or_saved f0 p).
Proof.
  intros s Hs.
  unfold step_manifest, bind, emit, pathExists, readFile, parse_json, lift_opt, writeFile,
    copyFile, push_file, ret, throw, failable.
  split_matches; norm_view; try discriminate; close_moved Hs.
Qed.

Ltac cov2 := let b' := fresh in let o' := fresh in let H := fresh in
  intros b' o' H; unfold all_backups in H; simpl in H;
  destruct H as [H|[H|[H|[]]]]; injection H as <- <-; simpl; tauto.

Lemma forward_moved (parse_template : content -> option json) (tc tg : string)
    (inp : Inputs) (ps : ProjectSettings) :
  vtriple (moved_inv f0 [] (legacy p)) (forward parse_template tc tg inp p ps)
    (moved_inv f0 (all_backups p) []) (intact_or_saved f0 p).
Proof.
  unfold forward.
  eapply vbind; [apply step_env_moved | intros _].
  eapply vbind; [apply step_manifest_moved | intros _].
  eapply vbind.
  { unfold step_backup_localSettings. eapply vbind.
    - apply vt_view_pres; [apply view_pres_emit | intros v Hv; exact Hv |].
      intros v Hv. apply (moved_intact f0 p [] (legacy p)); [exact Hv | cov_tac].
    - intros _. unfold legacy.
      apply (backup_step_moved [] [localManifestFile p; remoteManifestFile p]);
        [side_tac2 | side_tac2 | side_tac2 | side_tac2 | cov2]. }
  intros _. eapply vbind.
  { apply vt_view_pres; [apply view_pres_step_compare | intros v Hv; exact Hv |].
    intros v Hv. apply (moved_intact f0 p _ _ v Hv). cov2. }
  intros _. eapply vbind.
  { unfold step_backup_localManifest.
    apply (backup_step_moved [(backupLocalSettings p, localSettingsFile p)] [remoteManifestFile p]);
      [side_tac2 | side_tac2 | side_tac2 | side_tac2 | cov2]. }
  intros _. eapply vbind.
  { unfold step_backup_remote.
    apply (backup_step_moved [(backupLocalManifest p, localManifestFile p);
                              (backupLocalSettings p, localSettingsFile p)] []);
      [side_tac2 | side_tac2 | side_tac2 | side_tac2 | cov2]. }
  intros _. apply vt_view_pres; [apply view_pres_tail | intros v Hv; exact Hv |].
  intros v Hv. apply (moved_intact f0 p _ _ v Hv). cov2.
Qed.

Lemma report_moved (rf : string) :
  vtriple (moved_inv f0 (all_backups p) []) (generateUpgradeReport rf p)
    (moved_inv f0 (all_backups p) []) (moved_inv f0 (all_backups p) []).
Proof.
  intros s Hs. unfold generateUpgradeReport, try_catch, copyFile, failable, ret.
  split_matches; norm_view; try exact Hs.
  all: apply (moved_write f0 _ _ _ _ _ _ _ _ Hs); [| intros ? []].
  all: unfold all_backups, upgradeReportName; side_tac2.
Qed.
End Moved2.

(** X1: after a successful run, each legacy file (local settings, local and
    remote manifest) is gone from its original path, and its backup in the
    backup folder holds the original content whenever the original existed. *)
Theorem consolidate_success_moves_legacy (parse_template : content -> option json)
    (load : Inputs -> fsys -> ProjectSettings + error) (tc tg rf : string)
    (inp : Inputs) (p : string) (s : state) :
  let '(r, s') := consolidateLocalRemote parse_template load tc tg rf inp p s in
  r = Ok true ->
  forall b o, In (b, o) (all_backups p) ->
    fs_lookup (st_fs s') o = None /\
    (fs_lookup (st_fs s) o <> None -> fs_lookup (st_fs s') b = fs_lookup (st_fs s) o).
Proof.
  unfold consolidateLocalRemote.
  cbn [bind emit reset_run get_fs set_result_m ret throw try_catch].
  set (s1 := set_moveFiles "" (set_removeMap [] (set_fileList [] (add_event _ s)))).
  assert (Hf1 : st_fs s1 = st_fs s) by reflexivity.
  assert (Hh1 : st_hist s1 = (st_fs s, []) :: st_hist s) by reflexivity.
  assert (Hi1 : phase_inv (st_fs s) (st_hist s1) []
                  [localSettingsFile p; localManifestFile p; remoteManifestFile p] (view s1)).
  { split; [intros b o []|]. split; [exists []; split; [reflexivity | constructor]|].
    split; [intros bo []| intros o _; reflexivity]. }
  assert (Hm1 : moved_inv (st_fs s) [] (legacy p) (view s1)).
  { split; [intros o _; reflexivity | intros b o []]. }
  clearbody s1. rewrite Hf1. rewrite Hh1 in Hi1.
  destruct (load inp (st_fs s)) as [ps|e]; [|intros H; discriminate H].
  unfold bind, try_catch.
  pose proof (forward_phase (st_fs s) ((st_fs s, []) :: st_hist s) parse_template tc tg inp p ps
                s1 Hi1) as H2.
  pose proof (forward_moved (st_fs s) p parse_template tc tg inp ps s1 Hm1) as M2.
  destruct (forward parse_template tc tg inp p ps s1) as [[u|e] s2].
  - pose proof (report_phase (st_fs s) ((st_fs s, []) :: st_hist s) rf p s2 H2) as H3.
    pose proof (report_moved (st_fs s) p rf s2 M2) as M3.
    destruct (generateUpgradeReport rf p s2) as [[u'|e'] s3]; [|intros H; discriminate H].
    intros _ b o Hbo. unfold view in H3, M3.
    destruct M3 as (_ & Hd). destruct H3 as (Hr & _).
    destruct (Hd b o Hbo) as [Hn Hin]. split; [exact Hn|].
    intros Hne. apply (Hr b o (Hin Hne)).
  - destruct (rollback p s2) as [[u'|e'] s3]; intros H; discriminate H.
Qed.

Section Restore.
Variable f0 : fsys.
Variable p : string.

Lemma backup_not_legacy (b o b' o' : string) :
  In (b, o) (all_backups p) -> In (b', o') (all_backups p) -> b <> o'.
Proof. revert b o b' o'. unfold all_backups. side_tac2. Qed.

Lemma restore_loop (l : list (string * string)) (s : state) :
  (forall b o, In (b, o) l ->
     In (b, o) (all_backups p) /\ fs_lookup f0 o <> None /\ fs_lookup (st_fs s) b = fs_lookup f0 o) ->
  (forall b o, In (b, o) (all_backups p) -> fs_lookup (st_fs s) o = fs_lookup f0 o \/ In (b, o) l) ->
  let '(r, s') := iter (fun bo => copy (fst bo) (snd bo)) l s in
  r = Ok tt -> forall b o, In (b, o) (all_backups p) -> fs_lookup (st_fs s') o = fs_lookup f0 o.
Proof.
  revert s. induction l as [|[b1 o1] t IH]; intros s Hl Hcov.
  - intros _ b o Hbo. destruct (Hcov b o Hbo) as [H|[]]. exact H.
  - destruct (Hl b1 o1 (or_introl eq_refl)) as (Hin1 & Hne1 & Hb1).
    cbn [iter]. unfold bind at 1. unfold copy, copyFile, failable. cbn [fst snd].
    destruct (match st_fault s with Some n => (n =? st_clock s)%nat | None => false end).
    { intros H. discriminate H. }
    cbn [tick st_fs]. rewrite Hb1.
    destruct (fs_lookup f0 o1) as [c|] eqn:Ec; [|contradiction].
    set (s' := set_fs (fs_write (st_fs s) o1 c) _).
    apply (IH s').
    + intros b o Hbo. destruct (Hl b o (or_intror Hbo)) as (H1 & H2 & H3).
      split; [exact H1|]. split; [exact H2|]. cbn [s' set_fs st_fs].
      rewrite fs_lookup_write_other; [exact H3 | exact (backup_not_legacy b o b1 o1 H1 Hin1)].
    + intros b o Hbo. cbn [s' set_fs st_fs].
      destruct (String.eqb_spec o o1) as [->|Hne].
      * left. rewrite fs_lookup_write_same. symmetry. exact Ec.
      * rewrite fs_lookup_write_other by exact Hne.
        destruct (Hcov b o Hbo) as [H|[H|H]]; [left; exact H | injection H as -> ->; contradiction | right; exact H].
Qed.

Lemma remove_loop (l : list string) (s : state) :
  (forall x, In x l -> forall o, In o (legacy p) -> o <> x /\ under x o = false) ->
  forall o, In o (legacy p) ->
  fs_lookup (st_fs (snd (iter remove l s))) o = fs_lookup (st_fs s) o.
Proof.
  revert s. induction l as [|x t IH]; intros s Hl o Ho; [reflexivity|].
  cbn [iter]. unfold bind at 1.
  assert (Hx : fs_lookup (st_fs (snd (remove x s))) o = fs_lookup (st_fs s) o).
  { destruct (Hl x (or_introl eq_refl) o Ho) as [H1 H2].
    unfold remove, failable. split_matches; cbn [snd st_fs set_fs tick];
      first [reflexivity | apply fs_lookup_remove_other; assumption]. }
  destruct (remove x s) as [[u|e] s1]; cbn [snd] in *; [|exact Hx].
  rewrite <- Hx. apply IH; [|exact Ho]. intros y Hy. apply Hl. right. exact Hy.
Qed.

Lemma rollback_restores (h0 : list (fsys * list (string * string))) (s : state) :
  phase_done f0 h0 p (view s) -> intact_or_saved f0 p (view s) ->
  incl (st_fileList s) (run_files p) ->
  let '(r, s') := rollback p s in
  r = Ok tt -> forall o, In o (legacy p) -> fs_lookup (st_fs s') o = fs_lookup f0 o.
Proof.
  intros (Hr & _ & Ha & _) Hi Hfl.
  unfold rollback. unfold bind at 1. cbn [get_removeMap].
  pose proof (restore_loop (st_removeMap s) s) as H1.
  pose proof (restore_files (st_removeMap s) s) as F1.
  unfold bind at 1.
  destruct (iter (fun bo => copy (fst bo) (snd bo)) (st_removeMap s) s) as [[[]|e] s1];
    [|intros H; discriminate H].
  cbn [snd] in F1.
  specialize (H1 (fun b o Hbo => conj (Ha _ Hbo) (Hr b o Hbo)) Hi eq_refl).
  unfold bind at 1. cbn [get_fileList].
  assert (Hx : forall x, In x (st_fileList s1) -> forall o, In o (legacy p) -> o <> x /\ under x o = false).
  { rewrite F1. intros x Hx o Ho. apply Hfl in Hx. revert Hx Ho. unfold run_files, legacy. side_tac2. }
  pose proof (remove_loop (st_fileList s1) s1 Hx) as H2.
  unfold bind at 1.
  destruct (iter remove (st_fileList s1) s1) as [[u'|e'] s2]; [|intros H; discriminate H].
  cbn [snd] in H2.
  assert (Hfin : forall o, In o (legacy p) ->
            fs_lookup (st_fs (snd (remove (path_join [p; backupFolder]) s2))) o = fs_lookup f0 o).
  { intros o Ho.
    assert (Hlb : o <> path_join [p; backupFolder] /\ under (path_join [p; backupFolder]) o = false)
      by (revert Ho; unfold legacy; side_tac2).
    assert (Hbk : exists b, In (b, o) (all_backups p)).
    { revert Ho. unfold legacy, all_backups. intros [<-|[<-|[<-|[]]]]; eexists; simpl; tauto. }
    destruct Hbk as [b Hb].
    unfold remove, failable. split_matches; cbn [snd st_fs set_fs tick];
      rewrite ?fs_lookup_remove_other by apply Hlb; rewrite (H2 o Ho); exact (H1 b o Hb). }
  destruct (remove (path_join [p; backupFolder]) s2) as [r3 s3]. intros _. exact Hfin.
Qed.
End Restore.

(** X2: when the transformer steps raise and the rollback itself completes,
    every legacy file is back at its original path with its original content
    (starting from the empty [removeMap] and [fileList] the run resets). *)
Theorem rollback_restores_legacy (parse_template : content -> option json) (tc tg : string)
    (inp : Inputs) (p : string) (ps : ProjectSettings) (s : state) :
  st_removeMap s = [] -> st_fileList s = [] ->
  let '(r, s1) := forward parse_template tc tg inp p ps s in
  match r with
  | Exc _ =>
      let '(r2, s2) := rollback p s1 in
      r2 = Ok tt -> forall o, In o (legacy p) -> fs_lookup (st_fs s2) o = fs_lookup (st_fs s) o
  | Ok _ => True
  end.
Proof.
  intros Hrm Hfl.
  assert (Hi : phase_inv (st_fs s) (st_hist s) [] (legacy p) (view s)).
  { unfold view. rewrite Hrm. split; [intros b o []|].
    split; [exists []; split; [reflexivity | constructor]|].
    split; [intros bo []| intros o _; reflexivity]. }
  assert (Hm : moved_inv (st_fs s) [] (legacy p) (view s)) by (split; [intros o _; reflexivity | intros b o []]).
  assert (Hl : incl (st_fileList s) (run_files p)) by (rewrite Hfl; intros ? []).
  pose proof (forward_phase (st_fs s) (st_hist s) parse_template tc tg inp p ps s Hi) as H1.
  pose proof (forward_moved (st_fs s) p parse_template tc tg inp ps s Hm) as M1.
  pose proof (forward_files parse_template tc tg inp p ps s Hl) as L1.
  destruct (forward parse_template tc tg inp p ps s) as [[u|e] s1]; [exact I|].
  cbn [snd] in L1.
  exact (rollback_restores (st_fs s) p (st_hist s) s1 H1 M1 L1).
Qed.

Lemma consolidate_success_moves_legacy_witness :
  fst (demo_run None) = Ok true /\
  fs_lookup (st_fs (snd (demo_run None))) (localSettingsFile demo_project) = None /\
  fs_lookup (st_fs (snd (demo_run None))) (backupLocalSettings demo_project) = Some (CText "{}").
Proof.
  split; [vm_compute; reflexivity|].
  pose proof (consolidate_success_moves_legacy demo_parse demo_load "%s" "%s" "/res" demo_inputs
                demo_project (mkState demo_fs [] [] "" None [] 0 None [])) as H.
  unfold demo_run.
  assert (E : consolidateLocalRemote demo_parse demo_load "%s" "%s" "/res" demo_inputs demo_project
                (mkState demo_fs [] [] "" None [] 0 None []) =
              (Ok true, snd (consolidateLocalRemote demo_parse demo_load "%s" "%s" "/res" demo_inputs
                demo_project (mkState demo_fs [] [] "" None [] 0 None []))))
    by (vm_compute; reflexivity).
  rewrite E in H. cbv beta iota in H.
  destruct (H eq_refl (backupLocalSettings demo_project) (localSettingsFile demo_project)
              ltac:(simpl; tauto)) as [A B].
  split; [exact A|]. rewrite B; [vm_compute; reflexivity | vm_compute; discriminate].
Defined.

Lemma rollback_restores_legacy_witness :
  let s0 := mkState demo_fs [] [] "" None [] 0 (Some 6) [] in
  let ps := mkSettings "app" false in
  fst (forward demo_parse "%s" "%s" demo_inputs demo_project ps s0) = Exc (IoFault 6) /\
  fst (rollback demo_project (snd (forward demo_parse "%s" "%s" demo_inputs demo_project ps s0))) = Ok tt /\
  fs_lookup (st_fs (snd (rollback demo_project
     (snd (forward demo_parse "%s" "%s" demo_inputs demo_project ps s0)))))
     (localSettingsFile demo_project) = Some (CText "{}").
Proof.
  intros s0 ps.
  split; [vm_compute; reflexivity|]. split; [vm_compute; reflexivity|].
  pose proof (rollback_restores_legacy demo_parse "%s" "%s" demo_inputs demo_project ps s0
                eq_refl eq_refl) as H.
  assert (E : forward demo_parse "%s" "%s" demo_inputs demo_project ps s0 =
              (Exc (IoFault 6), snd (forward demo_parse "%s" "%s" demo_inputs demo_project ps s0)))
    by (vm_compute; reflexivity).
  rewrite E in H. cbv beta iota in H.
  assert (E2 : rollback demo_project (snd (forward demo_parse "%s" "%s" demo_inputs demo_project ps s0)) =
               (Ok tt, snd (rollback demo_project
                  (snd (forward demo_parse "%s" "%s" demo_inputs demo_project ps s0)))))
    by (vm_compute; reflexivity).
  rewrite E2 in H. cbv beta iota in H.
  rewrite (H eq_refl (localSettingsFile demo_project) ltac:(simpl; tauto)).
  vm_compute; reflexivity.
Defined.

Lemma prefix_app_l (a b s : string) : String.prefix (a ++ b) s = true -> String.prefix a s = true.
Proof.
  revert s. induction a as [|c t IH]; intros s H; [destruct s; reflexivity|].
  destruct s as [|c' s']; cbn [append String.prefix] in *; [discriminate H|].
  destruct (ascii_dec c c'); [apply IH; exact H | discriminate H].
Qed.

Lemma path_join_cons2 (p d r : string) (rest : list string) :
  path_join (p :: d :: r :: rest) = (path_join [p; d] ++ "/") ++ path_join (r :: rest).
Proof.
  unfold path_join. cbn [String.concat]. rewrite !string_app_assoc. reflexivity.
Qed.

Lemma beneath_dir (d r q : string) :
  under d q = false -> q <> (d ++ "/") ++ r /\ under ((d ++ "/") ++ r) q = false.
Proof.
  unfold under. intros H. split.
  - intros ->. rewrite prefix_app in H. discriminate H.
  - destruct (String.prefix (((d ++ "/") ++ r) ++ "/") q) eqn:E; [|reflexivity].
    rewrite string_app_assoc in E. apply prefix_app_l in E. congruence.
Qed.

Section Frame.
Variables p q : string.
Hypothesis Hq : forall x, In x (touched p) -> q <> x /\ under x q = false.

Lemma frame_backup (r : string) (rest : list string) :
  q <> path_join (p :: backupFolder :: r :: rest) /\
  under (path_join (p :: backupFolder :: r :: rest)) q = false.
Proof.
  rewrite path_join_cons2. apply beneath_dir.
  apply (Hq (path_join [p; backupFolder])). unfold touched. right; right; right; right; right; right; right; left; reflexivity.
Qed.


Ltac in_touched := unfold touched; repeat (first [left; reflexivity | right]).
Ltac frame_side :=
  first
    [ match goal with |- _ <> ?x => exact (proj1 (Hq x ltac:(in_touched))) end
    | match goal with |- under ?x _ = false => exact (proj2 (Hq x ltac:(in_touched))) end
    | unfold backupLocalSettings, backupLocalManifest, backupRemoteManifest;
      first [exact (proj1 (frame_backup _ _)) | exact (proj2 (frame_backup _ _))] ].

Ltac frame_tac :=
  let s := fresh "s" in let Hs := fresh "Hs" in
  intros s Hs;
  unfold step_env, step_manifest, step_backup_localSettings, step_backup_localManifest,
    step_backup_remote, bind, emit, writeEnvConfig, push_file, pathExists, readFile,
    parse_json, lift_opt, writeFile, copy, copyFile, remove, add_move, removeMap_set,
    get_moveFiles, postConsolidate, ret, throw, failable;
  split_matches;
  cbn [snd st_fs set_fs set_fileList tick add_event set_removeMap set_moveFiles] in *;
  repeat first [ rewrite fs_lookup_write_other by frame_side
               | rewrite fs_lookup_remove_other by frame_side ];
  exact Hs.

Lemma frame_forward (parse_template : content -> option json) (tc tg : string)
    (inp : Inputs) (ps : ProjectSettings) (c : option content) :
  stable (fun s => fs_lookup (st_fs s) q = c) (forward parse_template tc tg inp p ps).
Proof.
  unfold forward.
  apply stable_bind; [frame_tac | intros _].
  apply stable_bind; [frame_tac | intros _].
  apply stable_bind; [frame_tac | intros _].
  apply stable_bind.
  { intros s Hs. unfold step_compare, bind, pathExists, ret.
    destruct (fs_exists (st_fs s) (localManifestFile p)); [|exact Hs].
    destruct (fs_exists (st_fs s) (remoteManifestFile p)); [|exact Hs].
    pose proof (compare_total parse_template (localManifestFile p) (remoteManifestFile p) s) as H.
    destruct (compareLocalAndRemoteManifest parse_template _ _ s) as [r s'].
    destruct H as (_ & (Hf & _) & _). cbn [snd]. rewrite Hf. exact Hs. }
  intros _.
  apply stable_bind; [frame_tac | intros _].
  apply stable_bind; [frame_tac | intros _].
  frame_tac.
Qed.


Lemma frame_restore_loop (l : list (string * string)) (c : option content) (s : state) :
  incl l (all_backups p) -> fs_lookup (st_fs s) q = c ->
  fs_lookup (st_fs (snd (iter (fun bo => copy (fst bo) (snd bo)) l s))) q = c.
Proof.
  revert s. induction l as [|[b o] t IH]; intros s Hl Hs; [exact Hs|].
  cbn [iter]. unfold bind at 1. change (fst (b, o)) with b. change (snd (b, o)) with o.
  assert (Hc : fs_lookup (st_fs (snd (copy b o s))) q = c).
  { assert (Hb : In (b, o) (all_backups p)) by (apply Hl; left; reflexivity).
    revert Hb. unfold all_backups. intros [E|[E|[E|[]]]]; injection E as <- <-; revert s Hs; frame_tac. }
  destruct (copy b o s) as [[u|e] s1]; [|exact Hc].
  apply IH; [intros x Hx; apply Hl; right; exact Hx | exact Hc].
Qed.

Lemma frame_remove_loop (l : list string) (c : option content) (s : state) :
  incl l (run_files p) -> fs_lookup (st_fs s) q = c ->
  fs_lookup (st_fs (snd (iter remove l s))) q = c.
Proof.
  revert s. induction l as [|x t IH]; intros s Hl Hs; [exact Hs|].
  cbn [iter]. unfold bind at 1.
  assert (Hc : fs_lookup (st_fs (snd (remove x s))) q = c).
  { assert (Hx : In x (run_files p)) by (apply Hl; left; reflexivity).
    revert Hx. unfold run_files. intros [<-|[<-|[]]]; revert s Hs; frame_tac. }
  destruct (remove x s) as [[u|e] s1]; [|exact Hc].
  apply IH; [intros y Hy; apply Hl; right; exact Hy | exact Hc].
Qed.

Lemma frame_rollback (c : option content) (s : state) :
  incl (st_removeMap s) (all_backups p) -> incl (st_fileList s) (run_files p) ->
  fs_lookup (st_fs s) q = c -> fs_lookup (st_fs (snd (rollback p s))) q = c.
Proof.
  intros Hr Hf Hs. unfold rollback. unfold bind at 1. cbn [get_removeMap].
  pose proof (frame_restore_loop (st_removeMap s) c s Hr Hs) as H1.
  pose proof (restore_files (st_removeMap s) s) as F1.
  unfold bind at 1.
  destruct (iter (fun bo => copy (fst bo) (snd bo)) (st_removeMap s) s) as [[u|e] s1]; [|exact H1].
  cbn [snd] in H1, F1. unfold bind at 1. cbn [get_fileList].
  pose proof (frame_remove_loop (st_fileList s1) c s1 ltac:(rewrite F1; exact Hf) H1) as H2.
  unfold bind at 1.
  destruct (iter remove (st_fileList s1) s1) as [[u'|e'] s2]; [|exact H2].
  cbn [snd] in H2. revert s2 H2. frame_tac.
Qed.

Lemma frame_report (rf : string) (c : option content) :
  stable (fun s => fs_lookup (st_fs s) q = c) (generateUpgradeReport rf p).
Proof.
  intros s Hs. unfold generateUpgradeReport, try_catch.
  assert (H : fs_lookup (st_fs (snd (copyFile (path_join [rf; upgradeReportName])
                (path_join [p; backupFolder; upgradeReportName]) s))) q = c)
    by (revert s Hs; frame_tac).
  destruct (copyFile _ _ s) as [[u|e] s1]; exact H.
Qed.


Lemma frame_transform (parse_template : content -> option json) (tc tg rf : string)
    (inp : Inputs) (ps : ProjectSettings) (s : state) :
  st_removeMap s = [] -> st_fileList s = [] ->
  fs_lookup (st_fs (snd ((try_catch (forward parse_template tc tg inp p ps)
                                    (fun e => rollback p ;; throw e) ;;
                          generateUpgradeReport rf p ;; ret true) s))) q = fs_lookup (st_fs s) q.
Proof.
  intros Hrm Hfl.
  assert (Hi : phase_start (st_fs s) (st_hist s) p (view s)).
  { unfold phase_start, view. rewrite Hrm. split; [intros b o []|].
    split; [exists []; split; [reflexivity | constructor]|].
    split; [intros bo []| intros o _; reflexivity]. }
  assert (Hl : incl (st_fileList s) (run_files p)) by (rewrite Hfl; intros ? []).
  pose proof (forward_phase (st_fs s) (st_hist s) parse_template tc tg inp p ps s Hi) as H1.
  pose proof (forward_files parse_template tc tg inp p ps s Hl) as L1.
  pose proof (frame_forward parse_template tc tg inp ps _ s eq_refl) as F1.
  unfold bind at 1, try_catch.
  destruct (forward parse_template tc tg inp p ps s) as [[u|e] s1]; cbn [snd] in L1, F1.
  - unfold bind at 1. pose proof (frame_report rf _ s1 F1) as F2.
    destruct (generateUpgradeReport rf p s1) as [[u'|e'] s2]; exact F2.
  - destruct H1 as (_ & _ & Ha & _).
    unfold bind at 1. pose proof (frame_rollback _ s1 Ha L1 F1) as F2.
    destruct (rollback p s1) as [[u'|e'] s2]; exact F2.
Qed.

End Frame.



Lemma substring_drop_last (m : string) :
  substring 0 (String.length (m ++ ",") - 1) (m ++ ",") = m.
Proof.
  assert (Hl : forall t, String.length (t ++ ",") - 1 = String.length t).
  { induction t as [|c t IH]; [reflexivity|]. cbn [append String.length].
    rewrite <- IH. destruct (String.length (t ++ ",")) eqn:E; [|lia].
    destruct t; discriminate E. }
  rewrite Hl. induction m as [|c t IH]; [reflexivity|].
  cbn [append String.length substring]. rewrite IH. reflexivity.
Qed.

(** X4: [generateUpgradeReport] never raises; it changes no path but the
    report in the backup folder, which is left as it was or becomes a copy of
    the resource report. *)
Theorem generateUpgradeReport_never_raises (rf p : string) (s : state) :
  let '(r, s') := generateUpgradeReport rf p s in
  r = Ok tt /\
  (forall q, q <> path_join [p; backupFolder; upgradeReportName] ->
     fs_lookup (st_fs s') q = fs_lookup (st_fs s) q) /\
  (fs_lookup (st_fs s') (path_join [p; backupFolder; upgradeReportName]) =
     fs_lookup (st_fs s) (path_join [p; backupFolder; upgradeReportName]) \/
   fs_lookup (st_fs s') (path_join [p; backupFolder; upgradeReportName]) =
     fs_lookup (st_fs s) (path_join [rf; upgradeReportName])).
Proof.
  unfold generateUpgradeReport, try_catch, copyFile, failable, ret.
  split_matches; cbn [st_fs set_fs tick];
    (split; [reflexivity|]);
    (split; [intros q Hq; rewrite ?fs_lookup_write_other by exact Hq; reflexivity|]);
    first [left; reflexivity | right; rewrite fs_lookup_write_same; symmetry; assumption].
Qed.

Ltac peel_events :=
  lazymatch goal with
  | |- exists new, ?L = (new ++ _)%list /\ _ =>
      let rec go l :=
        lazymatch l with
        | ?x :: ?r => let r' := go r in constr:(x :: r')
        | _ => constr:(@nil event)
        end in
      let n := go L in exists n
  end.


(** X6: [checkMethod] refuses a call exactly when the latch is set and the
    method is intercepted, leaving the latch as it is; an accepted call sets
    the latch exactly when its method is intercepted. *)
Theorem checkMethod_latch (flag : bool) (m : option string) :
  let '(ok, flag') := checkMethod flag m in
  (ok = false <-> flag = true /\ exists x, m = Some x /\ methods_has x = true) /\
  (ok = false -> flag' = flag) /\
  (ok = true -> (flag' = true <-> exists x, m = Some x /\ methods_has x = true)).
Proof.
  unfold checkMethod. destruct m as [x|].
  - destruct (methods_has x) eqn:Hm.
    + rewrite (methods_has_nonempty x Hm). destruct flag; cbn [negb andb].
      * split; [split; [intros _; eauto | reflexivity] |].
        split; [reflexivity | intros H; discriminate H].
      * split; [split; [intros H; discriminate H | intros [H _]; discriminate H]|].
        split; [intros H; discriminate H | intros _; split; [eauto | reflexivity]].
    + rewrite andb_false_r. cbn [andb].
      split; [split; [intros H; discriminate H | intros (_ & y & Hy & Hy'); injection Hy as <-; congruence]|].
      split; [intros H; discriminate H|].
      intros _. split; [intros H; discriminate H | intros (y & Hy & Hy'); injection Hy as <-; congruence].
  - split; [split; [intros H; discriminate H | intros (_ & y & Hy & _); discriminate Hy]|].
    split; [intros H; discriminate H|].
    intros _. split; [intros H; discriminate H | intros (y & Hy & _); discriminate Hy].
Qed.

Lemma generateUpgradeReport_never_raises_witness :
  let s0 := mkState [(path_join ["/res"; upgradeReportName], CText "log")] [] [] "" None [] 0 None [] in
  fst (generateUpgradeReport "/res" demo_project s0) = Ok tt /\
  fs_lookup (st_fs (snd (generateUpgradeReport "/res" demo_project s0)))
    (path_join ["/res"; upgradeReportName]) = Some (CText "log").
Proof.
  intros s0. pose proof (generateUpgradeReport_never_raises "/res" demo_project s0) as H.
  destruct (generateUpgradeReport "/res" demo_project s0) as [r s'].
  destruct H as (Hr & Hf & _). cbn [fst snd]. split; [exact Hr|].
  rewrite Hf; [reflexivity | intros E; vm_compute in E; discriminate E].
Defined.


Lemma checkMethod_latch_witness :
  fst (checkMethod true (Some "getProjectConfig")) = false /\
  snd (checkMethod false (Some "getProjectConfig")) = true.
Proof.
  pose proof (checkMethod_latch true (Some "getProjectConfig")) as H1.
  pose proof (checkMethod_latch false (Some "getProjectConfig")) as H2.
  destruct (checkMethod true (Some "getProjectConfig")) as [ok1 fl1].
  destruct (checkMethod false (Some "getProjectConfig")) as [ok2 fl2].
  cbn [fst snd]. destruct H1 as [[_ H1] _]. destruct H2 as [[H2 _] [_ H2']].
  assert (Hok1 : ok1 = false) by (apply H1; split; [reflexivity | exists "getProjectConfig"; split; reflexivity]).
  split; [exact Hok1|].
  destruct ok2.
  - apply (H2' eq_refl). exists "getProjectConfig"; split; reflexivity.
  - destruct (H2 eq_refl) as [E _]. discriminate E.
Defined.

Lemma assoc_distinct (kvs : list (string * json)) (k : string) (v : json) :
  keys_distinct (map fst kvs) = true -> In (k, v) kvs -> assoc k kvs = Some v.
Proof.
  induction kvs as [|[k' v'] t IH]; [intros _ []|].
  cbn [map fst keys_distinct assoc]. rewrite andb_true_iff, negb_true_iff.
  intros [Hn Hd] [E|Hin].
  - injection E as <- <-. rewrite String.eqb_refl. reflexivity.
  - destruct (String.eqb_spec k k') as [->|_]; [|exact (IH Hd Hin)].
    exfalso. assert (Hx : existsb (String.eqb k') (map fst t) = true).
    { apply existsb_exists. exists k'. split; [apply (in_map fst _ _ Hin) | apply String.eqb_refl]. }
    congruence.
Qed.

Lemma indexed_keys (l : list json) :
  forall i k v, In (k, v) (indexed i l) -> exists j, k = string_of_nat (i + j) /\ nth_error l j = Some v.
Proof.
  induction l as [|x t IH]; intros i k v; [intros []|].
  cbn [indexed]. intros [E|Hin].
  - injection E as <- <-. exists 0. rewrite Nat.add_0_r. split; reflexivity.
  - destruct (IH (S i) k v Hin) as [j [-> Hj]]. exists (S j).
    split; [f_equal; lia | exact Hj].
Qed.

Lemma char_key_indexed (s : string) :
  forall i k v, In (k, v) (indexed_chars i s) -> char_key i k s = Some v.
Proof.
  assert (Hk : forall s i k v, In (k, v) (indexed_chars i s) -> exists j, k = string_of_nat (i + j)).
  { induction s0 as [|c t IH]; intros i k v; [intros []|].
    cbn [indexed_chars]. intros [E|Hin].
    - injection E as <- <-. exists 0. rewrite Nat.add_0_r. reflexivity.
    - destruct (IH (S i) k v Hin) as [j ->]. exists (S j). f_equal. lia. }
  induction s as [|c t IH]; intros i k v; [intros []|].
  cbn [indexed_chars char_key]. intros [E|Hin].
  - injection E as <- <-. rewrite String.eqb_refl. reflexivity.
  - destruct (String.eqb_spec k (string_of_nat i)) as [E|_]; [|exact (IH _ _ _ Hin)].
    exfalso. destruct (Hk t (S i) k v Hin) as [j Ej]. rewrite Ej in E.
    apply string_of_nat_inj in E. lia.
Qed.

Lemma js_get_own (a : json) (k : string) (v : json) :
  json_wf a = true -> In (k, v) (own_entries a) -> js_get a k = Some v.
Proof.
  intros Hwf Hin. destruct a as [| | | s | l | kvs]; cbn [own_entries] in Hin; try contradiction.
  - cbn [js_get]. rewrite (char_key_indexed s 0 k v Hin). reflexivity.
  - cbn [js_get]. destruct (indexed_keys l 0 k v Hin) as [j [-> Hj]].
    rewrite (nth_key_string_of_nat l 0 j), Hj. reflexivity.
  - cbn [js_get]. cbn [json_wf] in Hwf. apply andb_true_iff in Hwf as [Hd _].
    rewrite (assoc_distinct kvs k v Hd Hin). reflexivity.
Qed.

Lemma own_entries_wf (a : json) (k : string) (v : json) :
  json_wf a = true -> In (k, v) (own_entries a) -> isObject (Some v) = true -> json_wf v = true.
Proof.
  intros Hwf Hin Hv. destruct a as [| | | s | l | kvs]; cbn [own_entries] in Hin; try contradiction.
  - rewrite (in_indexed_chars _ _ _ _ Hin) in Hv. discriminate.
  - cbn [json_wf] in Hwf. rewrite forallb_forall in Hwf. apply Hwf. exact (in_indexed _ _ _ _ Hin).
  - cbn [json_wf] in Hwf. apply andb_true_iff in Hwf as [_ Hwf]. rewrite forallb_forall in Hwf.
    exact (Hwf (k, v) Hin).
Qed.

Lemma js_strict_eq_refl (v : json) : isObject (Some v) = false -> js_strict_eq (Some v) (Some v) = true.
Proof.
  destruct v; cbn; intros H; try discriminate H; try reflexivity.
  - apply eqb_reflx.
  - apply Z.eqb_refl.
  - apply String.eqb_refl.
Qed.

Lemma equiv_refl_bounded (n : nat) : forall a, json_size a < n -> json_wf a = true -> manifest_equiv a a.
Proof.
  induction n as [|n IHn]; intros a Hs Hwf; [lia|].
  constructor; [reflexivity|]. intros k v Hin _.
  rewrite (js_get_own a k v Hwf Hin).
  destruct (isObject (Some v)) eqn:Hv.
  - apply VM_nested; [exact Hv | exact Hv|]. apply IHn.
    + pose proof (own_entries_smaller _ _ _ Hin Hv). lia.
    + exact (own_entries_wf a k v Hwf Hin Hv).
  - apply VM_strict; [rewrite Hv; intros [H _]; discriminate H | apply js_strict_eq_refl; exact Hv].
Qed.



Lemma set_assoc_length (k : string) (v : json) (kvs : list (string * json)) :
  assoc k kvs <> None -> length (set_assoc k v kvs) = length kvs.
Proof.
  induction kvs as [|[k' v'] t IH]; cbn [assoc set_assoc]; [intros H; contradiction H; reflexivity|].
  destruct (String.eqb_spec k k'); [reflexivity|]. intros H. cbn [length]. rewrite (IH H). reflexivity.
Qed.

Lemma forallb_set_assoc (f : string * json -> bool) (k : string) (v : json) (kvs : list (string * json)) :
  (forall w, f (k, w) = true) -> forallb f (set_assoc k v kvs) = forallb f kvs.
Proof.
  intros Hf. induction kvs as [|[k' v'] t IH]; cbn [set_assoc forallb].
  - rewrite Hf. reflexivity.
  - destruct (String.eqb_spec k k') as [<-|_]; cbn [forallb]; [rewrite !Hf; reflexivity|].
    rewrite IH. reflexivity.
Qed.

(** X8: changing the value under an ignored key of an object does not change
    the result of [diff], on either side. *)
Theorem diff_ignores_ignored_values (k : string) (v : json) (kvs : list (string * json)) (b : json) :
  ignored k = true -> assoc k kvs <> None ->
  diff (JObj (set_assoc k v kvs)) b = diff (JObj kvs) b /\
  diff b (JObj (set_assoc k v kvs)) = diff b (JObj kvs).
Proof.
  intros Hk Hin. split.
  - rewrite !diff_unfold. cbn [key_count own_entries]. rewrite (set_assoc_length k v kvs Hin).
    f_equal. apply forallb_set_assoc. intros w. unfold field_ok. cbn [fst]. rewrite Hk. reflexivity.
  - rewrite !diff_unfold. cbn [key_count]. rewrite (set_assoc_length k v kvs Hin).
    f_equal. induction (own_entries b) as [|[k' v'] t IH]; cbn [forallb]; [reflexivity|].
    rewrite IH. f_equal. unfold field_ok. cbn [fst snd].
    destruct (ignored k') eqn:Hk'; [reflexivity|]. cbn [orb].
    assert (Hne : k' <> k) by (intros ->; congruence).
    cbn [js_get]. rewrite (assoc_set_assoc_neq k' k v kvs Hne). reflexivity.
Qed.

Lemma diff_ignores_ignored_values_witness :
  let kvs := [("description", JStr "old"); ("id", JNum 3)] in
  ignored "description" = true /\ assoc "description" kvs <> None /\
  diff (JObj (set_assoc "description" (JStr "new") kvs)) (JObj kvs) = true.
Proof.
  intros kvs. split; [reflexivity|]. split; [discriminate|].
  rewrite (proj1 (diff_ignores_ignored_values "description" (JStr "new") kvs (JObj kvs) eq_refl
                    ltac:(discriminate))).
  reflexivity.
Defined.

Lemma id_run_chars (s : string) : all_id_chars (fst (id_run s)) = true.
Proof.
  induction s as [|c t IH]; [reflexivity|]. cbn [id_run].
  destruct (is_id_char c) eqn:Hc; [|reflexivity].
  destruct (id_run t) as [r rest] eqn:E. cbn [fst] in *.
  unfold all_id_chars in *. cbn [list_ascii_of_string forallb]. rewrite Hc, IH. reflexivity.
Qed.

Lemma prefix_split (a s : string) : String.prefix a s = true -> exists r, s = a ++ r.
Proof.
  revert s. induction a as [|c t IH]; intros s H; [exists s; reflexivity|].
  destruct s as [|c' s']; cbn [String.prefix] in H; [discriminate H|].
  destruct (ascii_dec c c') as [<-|_]; [|discriminate H].
  destruct (IH s' H) as [r ->]. exists r. reflexivity.
Qed.

(** X9: [replaceSPFxComponentId] returns only characters of the identifier
    class, and the empty string when the content has no [componentId=]. *)
Theorem replaceSPFxComponentId_output (content : string) :
  all_id_chars (replaceSPFxComponentId content) = true /\
  ((forall pre post, content <> pre ++ "componentId=" ++ post) -> replaceSPFxComponentId content = "").
Proof.
  unfold replaceSPFxComponentId. split.
  - induction content as [|c t IH]; [reflexivity|]. cbn [exec_componentId].
    destruct (String.prefix "componentId=" (String c t)); [|exact IH].
    destruct (id_run _) as [r rest] eqn:E.
    destruct (String.prefix "%26" rest); [|exact IH].
    change r with (fst (r, rest)). rewrite <- E. apply id_run_chars.
  - intros Hno. enough (H : exec_componentId content = None) by (rewrite H; reflexivity).
    revert Hno. induction content as [|c t IH]; intros Hno; [reflexivity|]. cbn [exec_componentId].
    destruct (String.prefix "componentId=" (String c t)) eqn:Hp.
    + exfalso. destruct (prefix_split _ _ Hp) as [r Er]. exact (Hno "" r Er).
    + apply IH. intros pre post E. apply (Hno (String c pre) post). rewrite E. reflexivity.
Qed.

Lemma replaceSPFxComponentId_output_witness :
  replaceSPFxComponentId "https://x/?dest=abc" = "".
Proof.
  apply (proj2 (replaceSPFxComponentId_output "https://x/?dest=abc")).
  intros pre post E.
  assert (Hl : forall pre, String.length (pre ++ "componentId=" ++ post) >= 12).
  { intros p0. induction p0 as [|c t IH]; cbn [append String.length] in *; [|lia].
    cbn [String.length]. lia. }
  do 8 (destruct pre as [|? pre]; [discriminate E | injection E as _ E]).
  specialize (Hl pre). cbn [append] in Hl. rewrite <- E in Hl. cbn in Hl. lia.
Defined.

Lemma assoc_set_assoc_eq (k : string) (v : json) (kvs : list (string * json)) :
  assoc k (set_assoc k v kvs) = Some v.
Proof.
  induction kvs as [|[k' v'] t IH]; cbn [set_assoc assoc].
  - rewrite String.eqb_refl. reflexivity.
  - destruct (String.eqb_spec k k') as [->|Hne]; cbn [assoc].
    + rewrite String.eqb_refl. reflexivity.
    + destruct (String.eqb_spec k k'); [contradiction | exact IH].
Qed.

Lemma nth_key_length (i : nat) (l : list json) : nth_key i "length" l = None.
Proof.
  revert i. induction l as [|v t IH]; intros i; [reflexivity|]. cbn [nth_key].
  destruct (String.eqb_spec "length" (string_of_nat i)) as [E|_]; [|apply IH].
  exfalso. unfold string_of_nat in E. destruct (dec_digits_head i i "") as [x [r [Hx Er]]].
  rewrite Er in E. injection E as E _.
  do 10 (destruct x as [|x]; [discriminate E|]). lia.
Qed.

Lemma tabs_block_obj (f : string) (loop : option json -> list json -> option (option json * list json))
    (cid : option json) (kvs : list (string * json)) (r : option json * json) :
  f <> "__proto__" ->
  tabs_block f loop cid (JObj kvs) = Some r ->
  snd r = JObj kvs \/
  exists l l', assoc f kvs = Some (JArr l) /\ loop cid l = Some (fst r, l') /\
               snd r = JObj (set_assoc f (JArr l') kvs).
Proof.
  intros Hf. unfold tabs_block, js_get_opt. cbn [js_get].
  destruct (assoc f kvs) as [v|] eqn:Ea.
  - destruct (truthy (Some v) && length_pos (Some v)); [|intros H; injection H as <-; left; reflexivity].
    destruct v as [| | | | l |]; try (intros H; discriminate H).
    destruct (loop cid l) as [[cid' l']|] eqn:El; [|intros H; discriminate H].
    cbn [js_set]. intros H. injection H as <-. right. exists l, l'. auto.
  - unfold proto_get. destruct (String.eqb_spec f "__proto__"); [contradiction|].
    cbn [truthy andb]. intros H. injection H as <-. left. reflexivity.
Qed.

Lemma static_tabs_length (tpl : string) (l : list json) :
  forall cid cid' l', static_tabs tpl cid l = Some (cid', l') -> length l' = length l.
Proof.
  induction l as [|x t IH]; intros cid cid' l'; cbn [static_tabs].
  - intros H. injection H as _ <-. reflexivity.
  - destruct (static_tab_step tpl x) as [[c1 x']|]; [|intros H; discriminate H].
    destruct (static_tabs tpl c1 t) as [[c2 t']|] eqn:E; [|intros H; discriminate H].
    intros H. injection H as _ <-. cbn [length]. rewrite (IH _ _ _ E). reflexivity.
Qed.

Lemma config_tabs_length (tpl : string) (l : list json) :
  forall cid cid' l', config_tabs tpl cid l = Some (cid', l') -> length l' = length l.
Proof.
  induction l as [|x t IH]; intros cid cid' l'; cbn [config_tabs].
  - intros H. injection H as _ <-. reflexivity.
  - destruct (config_tab_step tpl cid x) as [[c1 x']|]; [|intros H; discriminate H].
    destruct (config_tabs tpl c1 t) as [[c2 t']|] eqn:E; [|intros H; discriminate H].
    intros H. injection H as _ <-. cbn [length]. rewrite (IH _ _ _ E). reflexivity.
Qed.

(** X10: the SPFx rewrite of a manifest object yields an object with the same
    values under every key but the tab arrays, and each tab array keeps its
    length. *)
Theorem spfx_rewrite_keeps_shape (tc tg : string) (kvs : list (string * json)) (m' : json) :
  spfx_rewrite tc tg (JObj kvs) = Some m' ->
  exists kvs', m' = JObj kvs' /\
  (forall k, k <> "staticTabs" -> k <> "configurableTabs" -> assoc k kvs' = assoc k kvs) /\
  (forall f l, (f = "staticTabs" \/ f = "configurableTabs") -> assoc f kvs = Some (JArr l) ->
     exists l', assoc f kvs' = Some (JArr l') /\ length l' = length l).
Proof.
  unfold spfx_rewrite.
  destruct (tabs_block "staticTabs" (static_tabs tc) (Some (JStr "")) (JObj kvs)) as [[cid m1]|] eqn:E1;
    [|intros H; discriminate H].
  destruct (tabs_block_obj "staticTabs" _ _ _ _ ltac:(discriminate) E1) as [H1|(l1 & l1' & A1 & L1 & H1)];
    cbn [fst snd] in *; subst m1.
  - destruct (tabs_block "configurableTabs" (config_tabs tg) cid (JObj kvs)) as [[cid2 m2]|] eqn:E2;
      [|intros H; discriminate H].
    intros H. injection H as <-.
    destruct (tabs_block_obj "configurableTabs" _ _ _ _ ltac:(discriminate) E2) as [H2|(l2 & l2' & A2 & L2 & H2)];
      cbn [fst snd] in *; subst m2.
    + exists kvs. split; [reflexivity|]. split; [reflexivity|]. intros f l _ Hf. exists l. auto.
    + eexists. split; [reflexivity|]. split.
      * intros k _ Hk. apply assoc_set_assoc_neq. exact Hk.
      * intros f l [->| ->] Hf.
        -- exists l. rewrite assoc_set_assoc_neq by discriminate. auto.
        -- rewrite A2 in Hf. injection Hf as <-. exists l2'.
           rewrite assoc_set_assoc_eq. split; [reflexivity|]. exact (config_tabs_length _ _ _ _ _ L2).
  - destruct (tabs_block "configurableTabs" (config_tabs tg) cid
                (JObj (set_assoc "staticTabs" (JArr l1') kvs))) as [[cid2 m2]|] eqn:E2;
      [|intros H; discriminate H].
    intros H. injection H as <-.
    assert (Hst : assoc "staticTabs" (set_assoc "staticTabs" (JArr l1') kvs) = Some (JArr l1') /\
                  length l1' = length l1)
      by (rewrite assoc_set_assoc_eq; split; [reflexivity | exact (static_tabs_length _ _ _ _ _ L1)]).
    destruct (tabs_block_obj "configurableTabs" _ _ _ _ ltac:(discriminate) E2) as [H2|(l2 & l2' & A2 & L2 & H2)];
      cbn [fst snd] in *; subst m2.
    + eexists. split; [reflexivity|]. split.
      * intros k Hk _. apply assoc_set_assoc_neq. exact Hk.
      * intros f l [->| ->] Hf.
        -- rewrite A1 in Hf. injection Hf as <-. exists l1'. exact Hst.
        -- exists l. rewrite assoc_set_assoc_neq by discriminate. exact (conj Hf eq_refl).
    + eexists. split; [reflexivity|]. split.
      * intros k Hk Hk'. rewrite !assoc_set_assoc_neq by assumption. reflexivity.
      * intros f l [->| ->] Hf.
        -- rewrite A1 in Hf. injection Hf as <-. exists l1'.
           rewrite assoc_set_assoc_neq by discriminate. exact Hst.
        -- rewrite assoc_set_assoc_neq in A2 by discriminate. rewrite A2 in Hf. injection Hf as <-.
           exists l2'. rewrite assoc_set_assoc_eq. split; [reflexivity|].
           exact (config_tabs_length _ _ _ _ _ L2).
Qed.

Lemma static_tabs_null (tpl : string) (l : list json) :
  In JNull l -> forall cid, static_tabs tpl cid l = None.
Proof.
  induction l as [|x t IH]; intros Hin cid; [destruct Hin|]. cbn [static_tabs].
  destruct Hin as [->|Hin]; [reflexivity|].
  destruct (static_tab_step tpl x) as [[c1 x']|]; [|reflexivity].
  rewrite (IH Hin c1). reflexivity.
Qed.

Lemma config_tabs_null (tpl : string) (l : list json) :
  In JNull l -> forall cid, config_tabs tpl cid l = None.
Proof.
  induction l as [|x t IH]; intros Hin cid; [destruct Hin|]. cbn [config_tabs].
  destruct Hin as [->|Hin]; [reflexivity|].
  destruct (config_tab_step tpl cid x) as [[c1 x']|]; [|reflexivity].
  rewrite (IH Hin c1). reflexivity.
Qed.

Lemma tabs_block_null (f : string) (loop : option json -> list json -> option (option json * list json))
    (cid : option json) (kvs : list (string * json)) (l : list json) :
  assoc f kvs = Some (JArr l) -> In JNull l -> loop cid l = None ->
  tabs_block f loop cid (JObj kvs) = None.
Proof.
  intros Ha Hin Hl. unfold tabs_block, js_get_opt. cbn [js_get]. rewrite Ha.
  cbn [truthy length_pos js_get]. rewrite nth_key_length.
  destruct l as [|x t]; [destruct Hin|]. cbn [length andb Z.of_nat].
  rewrite Hl. reflexivity.
Qed.

(** X11: the SPFx rewrite raises (reading a property of [null]) when a tab
    array holds [null]. *)
Theorem spfx_rewrite_null_tab (tc tg : string) (kvs : list (string * json)) (f : string) (l : list json) :
  (f = "staticTabs" \/ f = "configurableTabs") -> assoc f kvs = Some (JArr l) -> In JNull l ->
  spfx_rewrite tc tg (JObj kvs) = None.
Proof.
  intros [-> | ->] Ha Hin; unfold spfx_rewrite.
  - rewrite (tabs_block_null _ _ _ _ _ Ha Hin (static_tabs_null tc l Hin _)). reflexivity.
  - destruct (tabs_block "staticTabs" (static_tabs tc) (Some (JStr "")) (JObj kvs)) as [[cid m1]|] eqn:E1;
      [|reflexivity].
    destruct (tabs_block_obj "staticTabs" _ _ _ _ ltac:(discriminate) E1) as [H1|(l1 & l1' & A1 & L1 & H1)];
      cbn [fst snd] in *; subst m1.
    + rewrite (tabs_block_null _ _ _ _ _ Ha Hin (config_tabs_null tg l Hin _)). reflexivity.
    + rewrite (tabs_block_null "configurableTabs" (config_tabs tg) cid
                 (set_assoc "staticTabs" (JArr l1') kvs) l
                 ltac:(rewrite assoc_set_assoc_neq by discriminate; exact Ha) Hin
                 (config_tabs_null tg l Hin _)).
      reflexivity.
Qed.

Lemma spfx_rewrite_null_tab_witness :
  let kvs := [("id", JStr "x"); ("staticTabs", JArr [JObj [("entityId", JStr "t")]; JNull])] in
  assoc "staticTabs" kvs = Some (JArr [JObj [("entityId", JStr "t")]; JNull]) /\
  In JNull [JObj [("entityId", JStr "t")]; JNull] /\
  spfx_rewrite "%s" "%s" (JObj kvs) = None.
Proof.
  intros kvs. split; [reflexivity|]. split; [right; left; reflexivity|].
  apply (spfx_rewrite_null_tab "%s" "%s" kvs "staticTabs" [JObj [("entityId", JStr "t")]; JNull]);
    [left; reflexivity | reflexivity | right; left; reflexivity].
Defined.

Lemma spfx_rewrite_keeps_shape_witness :
  let kvs := [("id", JStr "x");
              ("staticTabs", JArr [JObj [("entityId", JStr "t"); ("contentUrl", JStr "u")]])] in
  exists m', spfx_rewrite "%s" "%s" (JObj kvs) = Some m' /\
  exists kvs', m' = JObj kvs' /\ assoc "id" kvs' = Some (JStr "x") /\
  exists l', assoc "staticTabs" kvs' = Some (JArr l') /\ length l' = 1.
Proof.
  intros kvs. eexists. split; [vm_compute; reflexivity|].
  destruct (spfx_rewrite_keeps_shape "%s" "%s" kvs _ ltac:(vm_compute; reflexivity))
    as (kvs' & E & Hk & Hl).
  exists kvs'. split; [exact E|]. split.
  - rewrite (Hk "id" ltac:(discriminate) ltac:(discriminate)). reflexivity.
  - exact (Hl "staticTabs" _ (or_introl eq_refl) eq_refl).
Defined.

Lemma fs_exists_remove_self (f : fsys) (x : string) : fs_exists (fs_remove f x) x = false.
Proof.
  unfold fs_exists, fs_remove. induction f as [|[y c] t IH]; [reflexivity|].
  cbn [filter fst]. destruct (String.eqb y x || under x y) eqn:E; cbn [negb]; [exact IH|].
  cbn [existsb fst]. rewrite E. exact IH.
Qed.

(** X12: when the rollback completes, no file is left in the backup folder. *)
Theorem rollback_clears_backup_folder (p : string) (s : state) :
  let '(r, s') := rollback p s in
  r = Ok tt -> fs_exists (st_fs s') (path_join [p; backupFolder]) = false.
Proof.
  unfold rollback. unfold bind at 1. cbn [get_removeMap].
  unfold bind at 1.
  destruct (iter (fun bo => copy (fst bo) (snd bo)) (st_removeMap s) s) as [[u|e] s1];
    [|intros H; discriminate H].
  unfold bind at 1. cbn [get_fileList]. unfold bind at 1.
  destruct (iter remove (st_fileList s1) s1) as [[u'|e'] s2]; [|intros H; discriminate H].
  unfold remove, failable.
  destruct (match st_fault s2 with Some n => Nat.eqb n (st_clock s2) | None => false end);
    [intros H; discriminate H|].
  intros _. cbn [st_fs set_fs tick]. apply fs_exists_remove_self.
Qed.

Lemma rollback_clears_backup_folder_witness :
  let s1 := snd (forward demo_parse "%s" "%s" demo_inputs demo_project (mkSettings "app" false)
                   (mkState demo_fs [] [] "" None [] 0 (Some 6) [])) in
  fst (rollback demo_project s1) = Ok tt /\
  fs_exists (st_fs (snd (rollback demo_project s1))) (path_join [demo_project; backupFolder]) = false.
Proof.
  intros s1. pose proof (rollback_clears_backup_folder demo_project s1) as H.
  assert (E : rollback demo_project s1 = (Ok tt, snd (rollback demo_project s1)))
    by (vm_compute; reflexivity).
  rewrite E in H |- *. cbn [fst snd]. split; [reflexivity | exact (H eq_refl)].
Defined.

Lemma stable_vt (J : view_t -> Prop) {A : Type} (m : M A) :
  stable (fun s => J (view s)) m -> vtriple J m J (fun _ => True).
Proof.
  intros Hm s Hs. specialize (Hm s Hs). destruct (m s) as [[a|e] s']; [exact Hm | exact I].
Qed.

Ltac path_frame_tac :=
  let s := fresh "s" in let Hs := fresh "Hs" in
  intros s Hs;
  unfold postConsolidate, get_moveFiles, step_env, step_manifest, step_backup_localSettings, step_backup_localManifest,
    step_backup_remote, bind, emit, writeEnvConfig, push_file, pathExists, readFile,
    parse_json, lift_opt, writeFile, copy, copyFile, remove, add_move, removeMap_set,
    ret, throw, failable;
  split_matches;
  cbn [snd st_fs set_fs set_fileList tick add_event set_removeMap set_moveFiles view fst] in *;
  repeat first [ rewrite fs_lookup_write_other by (unfold upgradeReportName; path_neq)
               | rewrite fs_lookup_remove_other by (unfold upgradeReportName; first [path_neq | path_not_under]) ];
  exact Hs.

Section Template.
Variable p : string.

Lemma tmpl_tail (parse_template : content -> option json) (inp : Inputs) (c : option content) :
  stable (fun s => fs_lookup (st_fs s) (getManifestTemplatePath p) = c)
    (step_backup_localSettings p ;;
     step_compare parse_template p ;;
     step_backup_localManifest p ;;
     step_backup_remote p ;;
     emit (Telemetry "ProjectConsolidateBackupConfig") ;;
     emit (Telemetry "ProjectConsolidateUpgrade") ;;
     mv <- get_moveFiles ;;
     postConsolidate p inp mv).
Proof.
  apply stable_bind; [path_frame_tac | intros _].
  apply stable_bind.
  { intros s Hs. unfold step_compare, bind, pathExists, ret.
    destruct (fs_exists (st_fs s) (localManifestFile p)); [|exact Hs].
    destruct (fs_exists (st_fs s) (remoteManifestFile p)); [|exact Hs].
    pose proof (compare_total parse_template (localManifestFile p) (remoteManifestFile p) s) as H.
    destruct (compareLocalAndRemoteManifest parse_template _ _ s) as [r s'].
    destruct H as (_ & (Hf & _) & _). cbn [snd]. rewrite Hf. exact Hs. }
  intros _.
  apply stable_bind; [path_frame_tac | intros _].
  path_frame_tac.
Qed.

Lemma tmpl_report (rf : string) (c : option content) :
  stable (fun s => fs_lookup (st_fs s) (getManifestTemplatePath p) = c) (generateUpgradeReport rf p).
Proof.
  intros s Hs. unfold generateUpgradeReport, try_catch.
  assert (H : fs_lookup (st_fs (snd (copyFile (path_join [rf; upgradeReportName])
                (path_join [p; backupFolder; upgradeReportName]) s))) (getManifestTemplatePath p) = c)
    by (revert s Hs; path_frame_tac).
  destruct (copyFile _ _ s) as [[u|e] s1]; exact H.
Qed.

Lemma tmpl_forward (parse_template : content -> option json) (tc tg : string)
    (inp : Inputs) (ps : ProjectSettings) (c : content) :
  isSPFxProject ps = false ->
  vtriple (fun v => fs_lookup (fst (fst v)) (remoteManifestFile p) = Some c)
    (forward parse_template tc tg inp p ps)
    (fun v => fs_lookup (fst (fst v)) (getManifestTemplatePath p) = Some c) (fun _ => True).
Proof.
  intros Hsp. unfold forward.
  apply (vbind _ (fun v => fs_lookup (fst (fst v)) (remoteManifestFile p) = Some c)).
  { apply stable_vt. path_frame_tac. }
  intros _.
  apply (vbind _ (fun v => fs_lookup (fst (fst v)) (getManifestTemplatePath p) = Some c)).
  { intros s Hs. cbn [view fst] in Hs.
    pose proof (fs_lookup_exists _ _ _ Hs) as He.
    unfold step_manifest, bind, pathExists, emit, copyFile, failable, push_file, ret.
    rewrite He, Hsp. cbn [st_fs add_event].
    destruct (match st_fault _ with Some n => Nat.eqb n _ | None => false end); [exact I|].
    cbn [st_fs tick add_event]. rewrite Hs. cbn [view st_fs set_fileList set_fs add_event tick fst snd].
    apply fs_lookup_write_same. }
  intros _. apply stable_vt. apply tmpl_tail.
Qed.

End Template.

(** X13: for a non-SPFx project, a successful run writes the unified manifest
    template with exactly the original content of the remote manifest
    template. *)
Theorem consolidate_copies_remote_manifest (parse_template : content -> option json)
    (loadProjectSettings : Inputs -> fsys -> ProjectSettings + error) (tc tg rf : string)
    (inp : Inputs) (p : string) (s : state) (ps : ProjectSettings) (c : content) :
  loadProjectSettings inp (st_fs s) = inl ps -> isSPFxProject ps = false ->
  fs_lookup (st_fs s) (remoteManifestFile p) = Some c ->
  let '(r, s') := consolidateLocalRemote parse_template loadProjectSettings tc tg rf inp p s in
  r = Ok true -> fs_lookup (st_fs s') (getManifestTemplatePath p) = Some c.
Proof.
  intros Hl Hsp Hc. unfold consolidateLocalRemote. unfold bind at 1 2 3. unfold emit, reset_run, get_fs.
  cbv beta iota. cbn [st_fs set_moveFiles set_removeMap set_fileList add_event]. rewrite Hl.
  set (s1 := set_moveFiles "" _).
  pose proof (tmpl_forward p parse_template tc tg inp ps c Hsp s1 Hc) as H1.
  unfold bind at 1, try_catch.
  destruct (forward parse_template tc tg inp p ps s1) as [[u|e] s2].
  - unfold bind at 1. pose proof (tmpl_report p rf _ s2 H1) as H2.
    destruct (generateUpgradeReport rf p s2) as [[u'|e'] s3]; [intros _; exact H2 | intros H; discriminate H].
  - unfold bind at 1. destruct (rollback p s2) as [[u'|e'] s3]; intros H; discriminate H.
Qed.

Lemma consolidate_copies_remote_manifest_witness :
  fst (demo_run None) = Ok true /\
  fs_lookup (st_fs (snd (demo_run None))) (getManifestTemplatePath demo_project) =
    Some (CJson (JObj [("id", JNum 1)])).
Proof.
  split; [vm_compute; reflexivity|].
  pose proof (consolidate_copies_remote_manifest demo_parse demo_load "%s" "%s" "/res" demo_inputs
                demo_project (mkState demo_fs [] [] "" None [] 0 None []) (mkSettings "app" false)
                (CJson (JObj [("id", JNum 1)])) eq_refl eq_refl eq_refl) as H.
  unfold demo_run.
  assert (E : consolidateLocalRemote demo_parse demo_load "%s" "%s" "/res" demo_inputs demo_project
                (mkState demo_fs [] [] "" None [] 0 None []) =
              (Ok true, snd (consolidateLocalRemote demo_parse demo_load "%s" "%s" "/res" demo_inputs
                demo_project (mkState demo_fs [] [] "" None [] 0 None []))))
    by (vm_compute; reflexivity).
  rewrite E in H. exact (H eq_refl).
Defined.

Lemma is_answer_eq (a : option string) (b : string) : is_answer a b = true -> a = Some b.
Proof.
  destruct a as [x|]; cbn; [|discriminate]. intros H. apply String.eqb_eq in H. subst. reflexivity.
Qed.

Lemma consent_effect (showModal : bool) (answers : list (option string)) (s : state) :
  let '(r, s') := consent showModal answers s in
  view s' = view s /\ st_result s' = st_result s /\
  exists r0, r = Ok r0 /\
    match r0 with
    | None => forall a, In a answers -> is_answer a LearnMore = true
    | Some a => In a answers /\ is_answer a LearnMore = false
    end.
Proof.
  revert s. induction answers as [|a rest IH]; intros s.
  - cbn. split; [reflexivity|]. split; [reflexivity|]. exists None. split; [reflexivity|]. intros a [].
  - cbn [consent]. unfold bind at 1, emit.
    destruct (is_answer a LearnMore) eqn:E.
    + unfold bind at 1. specialize (IH (add_event (OpenUrl LearnMoreLink)
        (add_event (ShowMessage "warn" "core.consolidateLocalRemote.Message" showModal
           [upgradeButton; LearnMore]) s))).
      destruct (consent showModal rest _) as [r s'].
      destruct IH as (Hv & Hr & r0 & -> & H). split; [exact Hv|]. split; [exact Hr|].
      exists r0. split; [reflexivity|]. destruct r0 as [a'|].
      * destruct H as [Hin Hl]. split; [right; exact Hin | exact Hl].
      * intros a0 [<-|Hin]; [exact E | exact (H a0 Hin)].
    + unfold ret. split; [reflexivity|]. split; [reflexivity|].
      exists (Some a). split; [reflexivity|]. split; [left; reflexivity | exact E].
Qed.

Lemma consent_upgrade_prefix (showModal : bool) (n : nat) (rest : list (option string)) (s : state) :
  fst (consent showModal ((repeat (Some LearnMore) n ++ Some upgradeButton :: rest)%list) s) =
    Ok (Some (Some upgradeButton)).
Proof.
  revert s. induction n as [|n IH]; intros s.
  - cbn. reflexivity.
  - cbn [repeat app consent]. unfold bind at 1, emit.
    replace (is_answer (Some LearnMore) LearnMore) with true by reflexivity.
    unfold bind at 1. specialize (IH (add_event (OpenUrl LearnMoreLink)
        (add_event (ShowMessage "warn" "core.consolidateLocalRemote.Message" showModal
           [upgradeButton; LearnMore]) s))).
    destruct (consent _ _ _) as [r s']. exact IH.
Qed.

Lemma outputCancelMessage_effect (args : list arg) (s : state) :
  let '(r, s') := outputCancelMessage args s in
  view s' = view s /\ st_result s' = st_result s /\
  (r = Ok tt \/ (r = Exc TypeErr /\ select_inputs args = None)).
Proof.
  unfold outputCancelMessage, bind, emit.
  destruct (select_inputs args) as [a|].
  - destruct (arg_platform a) as [[| |]|]; unfold bind;
      (split; [reflexivity | split; [reflexivity | left; reflexivity]]).
  - unfold throw. split; [reflexivity|]. split; [reflexivity|]. right. split; reflexivity.
Qed.

(** X14: when the user never answers Upgrade, [upgrade] changes no file and no
    [removeMap] entry; it raises only when the inputs are missing, and once
    the prompt is answered it records the cancellation error. *)
Theorem upgrade_declined_keeps_project (parse_template : content -> option json)
    (loadProjectSettings : Inputs -> fsys -> ProjectSettings + error)
    (tc tg rf : string) (next : M unit) (args : list arg) (showModal : bool)
    (answers : list (option string)) (s : state) :
  ~ In (Some upgradeButton) answers ->
  let '(r, s') := upgrade parse_template loadProjectSettings tc tg rf next args showModal answers s in
  view s' = view s /\
  (r = Ok tt \/ (r = Exc TypeErr /\ select_inputs args = None)) /\
  ((exists a, In a answers /\ is_answer a LearnMore = false) ->
   st_result s' = Some ConsolidateCanceledError).
Proof.
  intros Hno. unfold upgrade, bind at 1.
  pose proof (consent_effect showModal answers s) as Hc.
  destruct (consent showModal answers s) as [r1 s1].
  destruct Hc as (Hv1 & Hr1 & r0 & -> & H0).
  destruct r0 as [a|].
  - destruct H0 as [Hin Hl].
    assert (Hna : is_answer a upgradeButton = false).
    { destruct (is_answer a upgradeButton) eqn:E; [|reflexivity].
      apply is_answer_eq in E. subst a. contradiction. }
    rewrite Hna. cbn [negb]. unfold bind at 1, emit. unfold bind at 1, set_result_m.
    pose proof (outputCancelMessage_effect args
                  (set_result (Some ConsolidateCanceledError)
                     (add_event (Telemetry "ProjectConsolidateNotification:Cancel") s1))) as Ho.
    destruct (outputCancelMessage args _) as [r s'].
    destruct Ho as (Hv & Hr & Hout). split; [|split; [exact Hout|]].
    + rewrite Hv. exact Hv1.
    + intros _. rewrite Hr. reflexivity.
  - unfold ret. split; [exact Hv1|]. split; [left; reflexivity|].
    intros (a & Hin & Hl). rewrite (H0 a Hin) in Hl. discriminate Hl.
Qed.

(** X15: when the user answers Upgrade after any number of Learn More answers,
    [upgrade] ends as the consolidation followed by [next] ends, and rethrows
    their error unchanged after one [ProjectConsolidateError] telemetry error
    event. *)
Theorem upgrade_accepted_rethrows (parse_template : content -> option json)
    (loadProjectSettings : Inputs -> fsys -> ProjectSettings + error)
    (tc tg rf : string) (next : M unit) (args : list arg) (showModal : bool)
    (n : nat) (rest : list (option string)) (s : state) :
  let answers := (repeat (Some LearnMore) n ++ Some upgradeButton :: rest)%list in
  let s1 := add_event (Telemetry "ProjectConsolidateNotification:OK")
              (snd (consent showModal answers s)) in
  match (consolidate_ctx parse_template loadProjectSettings tc tg rf args ;; next) s1,
        upgrade parse_template loadProjectSettings tc tg rf next args showModal answers s with
  | (Exc e, s2), (r, s') => r = Exc e /\ s' = add_event (TelemetryError "ProjectConsolidateError") s2
  | (Ok u, s2), (r, s') => r = Ok u /\ s' = s2
  end.
Proof.
  cbv zeta.
  assert (HU : upgrade parse_template loadProjectSettings tc tg rf next args showModal
                 ((repeat (Some LearnMore) n ++ Some upgradeButton :: rest)%list) s =
               try_catch (consolidate_ctx parse_template loadProjectSettings tc tg rf args ;; next)
                 (fun e => emit (TelemetryError "ProjectConsolidateError") ;; throw e)
                 (add_event (Telemetry "ProjectConsolidateNotification:OK")
                    (snd (consent showModal ((repeat (Some LearnMore) n ++ Some upgradeButton :: rest)%list) s)))).
  { unfold upgrade. unfold bind at 1.
    pose proof (consent_upgrade_prefix showModal n rest s) as Hc.
    destruct (consent showModal _ s) as [r1 s1]. cbn [fst] in Hc. subst r1. cbn [snd].
    replace (is_answer (Some upgradeButton) upgradeButton) with true by reflexivity. cbn [negb].
    unfold bind at 1, emit. reflexivity. }
  rewrite HU. unfold try_catch.
  destruct ((consolidate_ctx parse_template loadProjectSettings tc tg rf args ;; next) _)
    as [[u|e] s2].
  - split; reflexivity.
  - unfold bind, throw, emit. split; reflexivity.
Qed.

Lemma upgrade_declined_keeps_project_witness :
  ~ In (Some upgradeButton) [Some LearnMore; None] /\
  let '(r, s') := upgrade demo_parse demo_load "%s" "%s" "/res" (ret tt)
                    [ArgInputs demo_inputs; ArgCtx] true [Some LearnMore; None]
                    (mkState demo_fs [] [] "" None [] 0 None []) in
  view s' = view (mkState demo_fs [] [] "" None [] 0 None []) /\
  (r = Ok tt \/ (r = Exc TypeErr /\ select_inputs [ArgInputs demo_inputs; ArgCtx] = None)) /\
  ((exists a, In a [Some LearnMore; None] /\ is_answer a LearnMore = false) ->
   st_result s' = Some ConsolidateCanceledError).
Proof.
  assert (Hno : ~ In (Some upgradeButton) [Some LearnMore; None])
    by (cbn; intros [H|[H|[]]]; discriminate H).
  split; [exact Hno|].
  exact (upgrade_declined_keeps_project demo_parse demo_load "%s" "%s" "/res" (ret tt)
           [ArgInputs demo_inputs; ArgCtx] true [Some LearnMore; None]
           (mkState demo_fs [] [] "" None [] 0 None []) Hno).
Defined.
